(** * Approval workflow of the expense management application

    A shallow embedding of the approval engine of [src/js/app.js] (module
    [App]) and of the earlier revision of the same script kept in the
    repository as [src/unnamed/part_000] (module [Legacy]), followed by the
    properties of the engine.

    Conventions of the embedding:
    - the browser's localStorage is the record [Store]; every [getX]/[setX]
      pair of the script reads or replaces one of its fields;
    - a function of the script that mutates an object it found inside a
      parsed collection and then writes the collection back is a function
      returning the new collection, the mutated object at its old index;
    - [throw new Error(msg)] is the outcome [Throw msg]; the store that comes
      with it is the store left behind by the call;
    - [nowIso()] and [uuid()] are inputs of the operation that calls them. *)

From Stdlib Require Import Ascii.
From stdpp Require Import base decidable option list strings.

Local Open Scope string_scope.
Local Open Scope nat_scope.
Local Open Scope list_scope.

(** ** Data model *)

(** The two values a stored [decision] takes: [approveOrReject] is the only
    writer and normalises its argument to one of them. *)
Inductive Decision := APPROVE | REJECT.

Global Instance Decision_eq_dec : EqDecision Decision.
Proof. solve_decision. Defined.

(** [{ userId, decision, comment, at }] *)
Record Approval := mkApproval {
  ap_userId : string;
  ap_decision : Decision;
  ap_comment : string;
  ap_at : string
}.

(** [{ role, approvals }] *)
Record Step := mkStep {
  st_role : string;
  st_approvals : list Approval
}.

(** [expense.approvals = { stepIndex, steps }] *)
Record Approvals := mkApprovals {
  stepIndex : nat;
  steps : list Step
}.

(** [{ at, status, by }] *)
Record HistoryEntry := mkHistory {
  h_at : string;
  h_status : string;
  h_by : string
}.

(** The fields of an expense the approval engine reads or writes; amount,
    currency, category, description, date and receipt are carried along
    untouched by every function below and are left out. [status] is the
    string the script stores. *)
Record Expense := mkExpense {
  e_id : string;
  e_userId : string;
  e_status : string;
  e_approvals : Approvals;
  e_history : list HistoryEntry
}.

(** [managerId] is the empty string when no manager is set (the user form
    stores [''], the seeded users have no such property; both are falsy). *)
Record User := mkUser {
  u_id : string;
  u_roles : list string;
  u_managerId : string
}.

Record PercentageRule := mkPercentageRule {
  pr_enabled : bool;
  pr_threshold : nat
}.

Record SpecificApproverRule := mkSpecificApproverRule {
  sa_enabled : bool;
  sa_role : string
}.

Record Rules := mkRules {
  r_steps : list string;
  r_percentageRule : PercentageRule;
  r_specificApproverRule : SpecificApproverRule;
  r_hybrid : bool
}.

(** localStorage: the keys [ems_users], [ems_expenses], [ems_rules] (absent
    until first written) and [ems_roles]. *)
Record Store := mkStore {
  users : list User;
  expenses : list Expense;
  rules : option Rules;
  customRoles : list string
}.

(** Outcome of a call that may throw. *)
Inductive result (A : Type) :=
| Ok (a : A)
| Throw (msg : string).
Arguments Ok {A} a.
Arguments Throw {A} msg.

(** ** Constants *)

Module ROLES.
Definition EMPLOYEE := "EMPLOYEE".
Definition MANAGER := "MANAGER".
Definition FINANCE := "FINANCE".
Definition DIRECTOR := "DIRECTOR".
Definition ADMIN := "ADMIN".
Definition CFO := "CFO".
End ROLES.

Definition BASE_ROLES : list string :=
  [ROLES.EMPLOYEE; ROLES.MANAGER; ROLES.FINANCE; ROLES.DIRECTOR; ROLES.ADMIN; ROLES.CFO].

Definition DEFAULT_RULES : Rules :=
  mkRules [ROLES.MANAGER; ROLES.FINANCE; ROLES.DIRECTOR]
          (mkPercentageRule true 50)
          (mkSpecificApproverRule true ROLES.CFO)
          true.

Definition PENDING := "PENDING".
Definition APPROVED := "APPROVED".
Definition REJECTED := "REJECTED".

(** The messages of the three errors [approveOrReject] and [adminOverride]
    throw. *)
Definition NotFound := "Expense not found".
Definition NotPending := "Expense is not pending".
Definition NoActiveStep := "No active approval step".

(** ** Storage accessors *)

Definition getUsers (db : Store) : list User := users db.
Definition setUsers (u : list User) (db : Store) : Store :=
  mkStore u (expenses db) (rules db) (customRoles db).

(** [Storage.get(KEYS.rules, DEFAULT_RULES)] *)
Definition getRules (db : Store) : Rules := default DEFAULT_RULES (rules db).
Definition setRules (r : Rules) (db : Store) : Store :=
  mkStore (users db) (expenses db) (Some r) (customRoles db).

Definition getExpenses (db : Store) : list Expense := expenses db.
Definition setExpenses (e : list Expense) (db : Store) : Store :=
  mkStore (users db) e (rules db) (customRoles db).

(** [Array.from(new Set(xs))]: the first occurrence of each element, in
    order. *)
Fixpoint uniqFrom (seen xs : list string) : list string :=
  match xs with
  | [] => []
  | x :: xs' =>
    if bool_decide (x ∈ seen) then uniqFrom seen xs'
    else x :: uniqFrom (x :: seen) xs'
  end.

Definition arrayFromSet (xs : list string) : list string := uniqFrom [] xs.

Definition getCustomRoles (db : Store) : list string := customRoles db.
Definition setCustomRoles (l : list string) (db : Store) : Store :=
  mkStore (users db) (expenses db) (rules db) (arrayFromSet l).
Definition getAllRoles (db : Store) : list string :=
  arrayFromSet (BASE_ROLES ++ getCustomRoles db).

(** ** Values bound to [role]

    [getCurrentStep] hands back, under the name [role], whatever sits at
    [steps[idx]]: in [Legacy] an entry of the rule set's [steps] (a role
    name), in [App] an entry of the expense's own [approvals.steps] (a step
    record). [eligibleApproverIds] and [hasRole] compare that value with
    role names using [===] and [Array.prototype.includes]. *)
Inductive RoleValue :=
| RoleName (r : string)
| StepRecord (s : Step).

(** JavaScript truthiness: an object is truthy, a string unless empty. *)
Definition truthy (v : RoleValue) : bool :=
  match v with
  | RoleName r => negb (bool_decide (r = ""))
  | StepRecord _ => true
  end.

(** [v === name] for a string [name]: an object never equals a string. *)
Definition strictEqName (v : RoleValue) (name : string) : bool :=
  match v with
  | RoleName r => bool_decide (r = name)
  | StepRecord _ => false
  end.

Definition roleList (u : User) : list string := u_roles u.

(** [!!roleList(u).includes(role)]: the role lists hold strings only. *)
Definition hasRole (u : User) (role : RoleValue) : bool :=
  match role with
  | RoleName r => bool_decide (r ∈ roleList u)
  | StepRecord _ => false
  end.

(** ** Helpers shared by both revisions *)

Definition setStatus (s : string) (e : Expense) : Expense :=
  mkExpense (e_id e) (e_userId e) s (e_approvals e) (e_history e).

Definition setStepIndex (i : nat) (e : Expense) : Expense :=
  mkExpense (e_id e) (e_userId e) (e_status e)
            (mkApprovals i (steps (e_approvals e))) (e_history e).

(** [(expense.history ||= []).push({ at: nowIso(), status, by })] *)
Definition recordHistory (now : string) (e : Expense) (status by_ : string) : Expense :=
  mkExpense (e_id e) (e_userId e) (e_status e) (e_approvals e)
            (e_history e ++ [mkHistory now status by_]).

(** [approvals[approvals.length - 1]?.userId || ''] *)
Definition lastUserId (approvals : list Approval) : string :=
  from_option ap_userId "" (last approvals).

Definition isApprove (a : Approval) : bool := bool_decide (ap_decision a = APPROVE).
Definition isReject (a : Approval) : bool := bool_decide (ap_decision a = REJECT).

(** [step.approvals.push(a)] on the step at index [idx] of the expense. *)
Definition pushApproval (idx : nat) (a : Approval) (e : Expense) : Expense :=
  mkExpense (e_id e) (e_userId e) (e_status e)
    (mkApprovals (stepIndex (e_approvals e))
       (alter (λ s, mkStep (st_role s) (st_approvals s ++ [a])) idx
              (steps (e_approvals e))))
    (e_history e).

(** [decision === 'APPROVE' ? 'APPROVE' : 'REJECT'] *)
Definition normalizeDecision (decision : string) : Decision :=
  if bool_decide (decision = "APPROVE") then APPROVE else REJECT.

(** [expenses.find(e => e.id === expenseId)] with the index of the hit. *)
Definition findExpense (expenseId : string) (l : list Expense) : option (nat * Expense) :=
  list_find (λ e, e_id e = expenseId) l.

Definition findUser (userId : string) (l : list User) : option User :=
  snd <$> list_find (λ u, u_id u = userId) l.

(** ** The engine of src/js/app.js *)

Module App.

(** [const steps = expense?.approvals?.steps || getRules().steps || [];
     const idx = expense?.approvals?.stepIndex ?? 0;
     const role = steps[idx] || null;]
    Every expense record carries its [approvals] block, and an array is
    truthy even when empty, so [steps] is the expense's own array and the
    rule set is not read. *)
Definition getCurrentStep (e : Expense) : nat * option RoleValue :=
  let steps_ := steps (e_approvals e) in
  let idx := stepIndex (e_approvals e) in
  (idx, StepRecord <$> steps_ !! idx).

(** Eligible approver ids for a step role on an expense. *)
Definition eligibleApproverIds (db : Store) (e : Expense) (role : RoleValue) : list string :=
  if negb (truthy role) then []
  else if strictEqName role ROLES.MANAGER then
    match findUser (e_userId e) (getUsers db) with
    | Some emp => if bool_decide (u_managerId emp = "") then [] else [u_managerId emp]
    | None => []
    end
  else u_id <$> filter (λ u, hasRole u role = true) (getUsers db).

Definition isUserApproverFor (db : Store) (e : Expense) (user : User) : bool :=
  match snd (getCurrentStep e) with
  | None => false
  | Some role =>
    bool_decide (u_id user ∈ eligibleApproverIds db e role)
    || hasRole user (RoleName ROLES.ADMIN)
  end.

Definition approverEntry (e : Expense) : option Step :=
  match getCurrentStep e with
  | (_, None) => None
  | (idx, Some _) => steps (e_approvals e) !! idx
  end.

(** The block both passing branches of [rulesEval] repeat:
    [const next = stepIndex + 1;
     if (next >= steps.length) { status = 'APPROVED'; recordHistory(...) }
     else { stepIndex = next }] *)
Definition advance (now : string) (e : Expense) (approvals : list Approval) : Expense :=
  let next := stepIndex (e_approvals e) + 1 in
  if bool_decide (length (steps (e_approvals e)) ≤ next) then
    recordHistory now (setStatus APPROVED e) APPROVED (lastUserId approvals)
  else setStepIndex next e.

Definition rulesEval (now : string) (db : Store) (e : Expense) : Expense :=
  match getCurrentStep e with
  | (_, None) => e
  | (idx, Some role) =>
    match steps (e_approvals e) !! idx with
    | None => e (* not reached: [role] was read from this very slot *)
    | Some step =>
      let approvals := st_approvals step in
      if existsb isReject approvals then
        recordHistory now (setStatus REJECTED e) REJECTED (lastUserId approvals)
      else
        let eligible := eligibleApproverIds db e role in
        if bool_decide (length eligible = 0) then advance now e approvals
        else
          let approvedUserIds :=
            arrayFromSet (ap_userId <$> filter (λ a, isApprove a = true) approvals) in
          let pass := forallb (λ id, bool_decide (id ∈ approvedUserIds)) eligible in
          if pass then advance now e approvals else e
    end
  end.

(** [nowPush] is the clock reading stored in the decision record, [nowEval]
    the one [rulesEval] stores if it writes a history entry. *)
Definition approveOrReject (nowPush nowEval : string) (db : Store)
    (expenseId userId decision comment : string) : Store * result string :=
  match findExpense expenseId (getExpenses db) with
  | None => (db, Throw NotFound)
  | Some (i, expense) =>
    if negb (bool_decide (e_status expense = PENDING)) then (db, Throw NotPending)
    else
      match approverEntry expense with
      | None => (db, Throw NoActiveStep)
      | Some _ =>
        let a := mkApproval userId (normalizeDecision decision) comment nowPush in
        let pushed := pushApproval (fst (getCurrentStep expense)) a expense in
        let expense' := rulesEval nowEval db pushed in
        (setExpenses (<[i := expense']> (getExpenses db)) db, Ok (e_status expense'))
      end
  end.

Definition adminOverride (now : string) (db : Store)
    (expenseId status adminId : string) : Store * result unit :=
  match findExpense expenseId (getExpenses db) with
  | None => (db, Throw NotFound)
  | Some (i, e) =>
    let e1 := setStatus status e in
    (* Mark as concluded relative to the expense's own steps *)
    let e2 := setStepIndex (length (steps (e_approvals e1))) e1 in
    let e3 := recordHistory now e2 status adminId in
    (setExpenses (<[i := e3]> (getExpenses db)) db, Ok tt)
  end.

End App.

(** ** Expense creation and role management of src/js/app.js *)

Module AppAdmin.

(** The [approvals] block [handleExpenseSubmit] builds:
    [{ stepIndex: 0, steps: getRules().steps.map(r => ({ role: r, approvals: [] })) }] *)
Definition newApprovals (db : Store) : Approvals :=
  mkApprovals 0 ((λ r, mkStep r []) <$> r_steps (getRules db)).

(** [expenses.unshift(exp)] *)
Definition addExpense (exp : Expense) (db : Store) : Store :=
  setExpenses (exp :: getExpenses db) db.

(** [handleExpenseSubmit] for the signed-in user [userId]; [id] is the
    [uuid()] it draws. *)
Definition handleExpenseSubmit (now id userId : string) (db : Store) : Store :=
  addExpense (mkExpense id userId PENDING (newApprovals db)
                        [mkHistory now PENDING userId]) db.

(** [removeRole(role)], the three writes in the order of the script. *)
Definition removeRole (role : string) (db : Store) : Store :=
  let custom := filter (λ r, r ≠ role) (getCustomRoles db) in
  let db1 := setCustomRoles custom db in
  (* Remove from users *)
  let users_ :=
    (λ u, mkUser (u_id u) (filter (λ x, x ≠ role) (u_roles u)) (u_managerId u))
      <$> getUsers db1 in
  let db2 := setUsers users_ db1 in
  (* Fix rules if pointing to removed role *)
  let r := getRules db2 in
  let sa :=
    if bool_decide (sa_role (r_specificApproverRule r) = role)
    then mkSpecificApproverRule (sa_enabled (r_specificApproverRule r)) ROLES.CFO
    else r_specificApproverRule r in
  let filtered := filter (λ x, x ≠ role) (r_steps r) in
  let steps_ :=
    if bool_decide (length filtered = 0)
    then [ROLES.MANAGER; ROLES.FINANCE; ROLES.DIRECTOR]
    else filtered in
  setRules (mkRules steps_ (r_percentageRule r) sa (r_hybrid r)) db2.

(** A chip of the roles list: its [data-role] and whether it carries
    [data-base="true"]. *)
Record Chip := mkChip {
  data_role : string;
  data_base : bool
}.

(** [renderRolesList]: the built-in chips, then the custom ones. *)
Definition renderRolesList (db : Store) : list Chip :=
  ((λ r, mkChip r true) <$> BASE_ROLES)
  ++ ((λ r, mkChip r false) <$> getCustomRoles db).

(** The click handler of [#roles-list]: [chip] is the chip under the click,
    if any, [confirmed] the answer to the confirmation dialog.
    [if (!chip) return;
     if (chip.dataset.base === 'true') return; // built-in, not removable
     if (confirm(...)) removeRole(role);] *)
Definition onRolesListClick (chip : option Chip) (confirmed : bool) (db : Store) : Store :=
  match chip with
  | None => db
  | Some c =>
    if data_base c then db
    else if confirmed then removeRole (data_role c) db else db
  end.

End AppAdmin.

(** ** The engine of src/unnamed/part_000 *)

Module Legacy.

(** [const steps = getRules().steps; const role = steps[idx] || null;] *)
Definition getCurrentStep (db : Store) (e : Expense) : nat * option string :=
  let steps_ := r_steps (getRules db) in
  let idx := stepIndex (e_approvals e) in
  (idx, match steps_ !! idx with
        | Some r => if bool_decide (r = "") then None else Some r
        | None => None
        end).

Definition isUserApproverFor (db : Store) (e : Expense) (user : User) : bool :=
  match snd (getCurrentStep db e) with
  | None => false
  | Some role =>
    if bool_decide (role = ROLES.MANAGER) then
      match findUser (e_userId e) (getUsers db) with
      | Some emp =>
        negb (bool_decide (u_managerId emp = ""))
        && bool_decide (u_id user = u_managerId emp)
      | None => false
      end
    else hasRole user (RoleName role) || hasRole user (RoleName ROLES.ADMIN)
  end.

(** [null] when no role is active, else [expense.approvals.steps[idx]],
    which is [undefined] past the end of the expense's own array; callers
    test the result with [!step]. *)
Definition approverEntry (db : Store) (e : Expense) : option Step :=
  match getCurrentStep db e with
  | (_, None) => None
  | (idx, Some _) => steps (e_approvals e) !! idx
  end.

(** First hit of a search that returns from inside a [for ... of] loop. *)
Fixpoint firstSome {A B : Type} (f : A → option B) (l : list A) : option B :=
  match l with
  | [] => None
  | x :: l' => match f x with Some b => Some b | None => firstSome f l' end
  end.

(** Body of the inner loop of the override scan:
    [const u = getUsers().find(x => x.id === a.userId);
     if (a.decision === 'APPROVE' && u && hasRole(u, role)) ... u.id] *)
Definition overrideBy (db : Store) (role : string) (a : Approval) : option string :=
  match findUser (ap_userId a) (getUsers db) with
  | Some u => if isApprove a && hasRole u (RoleName role) then Some (u_id u) else None
  | None => None
  end.

(** [for (const s of expense.approvals.steps) for (const a of s.approvals)] *)
Definition scanOverride (db : Store) (role : string) (e : Expense) : option string :=
  firstSome (λ s, firstSome (overrideBy db role) (st_approvals s))
            (steps (e_approvals e)).

(** [clamp(threshold || 50, 1, 100)] *)
Definition clampThreshold (threshold : nat) : nat :=
  let t := if bool_decide (threshold = 0) then 50 else threshold in
  (t `max` 1) `min` 100.

(** [(approved / total) * 100 >= t] for counts [approved <= total],
    [total > 0], written without the division. The script computes the
    left side in double precision; at the one place it does so no REJECT is
    among the decisions, hence [approved = total] and the double is exactly
    100 (lemma [Legacy_counts_without_reject]). *)
Definition pctAtLeast (approved total t : nat) : bool :=
  bool_decide (t * total ≤ 100 * approved).

Definition rulesEval (now : string) (db : Store) (e : Expense) : Expense :=
  let rules_ := getRules db in
  match approverEntry db e with
  | None => e
  | Some step =>
    (* CFO override *)
    match (if sa_enabled (r_specificApproverRule rules_)
           then scanOverride db (sa_role (r_specificApproverRule rules_)) e
           else None) with
    | Some uid =>
      recordHistory now
        (setStepIndex (length (r_steps rules_)) (setStatus APPROVED e))
        APPROVED uid
    | None =>
      (* Percentage rule for current step *)
      let approvals := st_approvals step in
      let total := length approvals in
      let approved := length (filter (λ a, isApprove a = true) approvals) in
      let rejected := length (filter (λ a, isReject a = true) approvals) in
      if bool_decide (0 < rejected) then
        recordHistory now (setStatus REJECTED e) REJECTED (lastUserId approvals)
      else
        let pass :=
          if pr_enabled (r_percentageRule rules_) && bool_decide (0 < total)
          then pctAtLeast approved total
                          (clampThreshold (pr_threshold (r_percentageRule rules_)))
          else bool_decide (0 < approved) in
        if pass then
          let next := stepIndex (e_approvals e) + 1 in
          if bool_decide (length (r_steps (getRules db)) ≤ next) then
            recordHistory now (setStatus APPROVED e) APPROVED (lastUserId approvals)
          else setStepIndex next e
        else e
    end
  end.

Definition approveOrReject (nowPush nowEval : string) (db : Store)
    (expenseId userId decision comment : string) : Store * result string :=
  match findExpense expenseId (getExpenses db) with
  | None => (db, Throw NotFound)
  | Some (i, expense) =>
    if negb (bool_decide (e_status expense = PENDING)) then (db, Throw NotPending)
    else
      match approverEntry db expense with
      | None => (db, Throw NoActiveStep)
      | Some _ =>
        let a := mkApproval userId (normalizeDecision decision) comment nowPush in
        let pushed := pushApproval (fst (getCurrentStep db expense)) a expense in
        let expense' := rulesEval nowEval db pushed in
        (setExpenses (<[i := expense']> (getExpenses db)) db, Ok (e_status expense'))
      end
  end.

Definition adminOverride (now : string) (db : Store)
    (expenseId status adminId : string) : Store * result unit :=
  match findExpense expenseId (getExpenses db) with
  | None => (db, Throw NotFound)
  | Some (i, e) =>
    let e1 := setStatus status e in
    let e2 := setStepIndex (length (r_steps (getRules db))) e1 in
    let e3 := recordHistory now e2 status adminId in
    (setExpenses (<[i := e3]> (getExpenses db)) db, Ok tt)
  end.

End Legacy.

(** ** The pass condition as the specification words it (sections 4.2, 4.3)

    A second set of definitions, written from the text of the specification
    and not from the script, against which the two engines are compared. *)

Module Spec.

(** [eligibleApprovers(expense, role)]: for MANAGER exactly the submitting
    user's declared manager, if one is set; for any other role every user
    currently holding that role. *)
Definition eligibleApprovers (db : Store) (e : Expense) (role : string) : list string :=
  if bool_decide (role = ROLES.MANAGER) then
    match findUser (e_userId e) (getUsers db) with
    | Some emp => if bool_decide (u_managerId emp = "") then [] else [u_managerId emp]
    | None => []
    end
  else u_id <$> filter (λ u, role ∈ u_roles u) (getUsers db).

(** Deduplicated ids with an APPROVE decision at the step. *)
Definition approvedIds (approvals : list Approval) : list string :=
  arrayFromSet (ap_userId <$> filter (λ a, ap_decision a = APPROVE) approvals).

(** [unanimous = eligible ⊆ approvedIds] *)
Definition unanimous (eligible : list string) (approvals : list Approval) : bool :=
  forallb (λ id, bool_decide (id ∈ approvedIds approvals)) eligible.

(** The distinct eligible ids that have made any decision at the step. *)
Definition decidedIds (eligible : list string) (approvals : list Approval) : list string :=
  filter (λ id, id ∈ (ap_userId <$> approvals)) (arrayFromSet eligible).

(** Those among them with an APPROVE decision. *)
Definition approvedDecidedIds (eligible : list string) (approvals : list Approval) : list string :=
  filter (λ id, id ∈ approvedIds approvals) (decidedIds eligible approvals).

(** [percentageRule.enabled ∧ decided > 0 ∧ approved / decided × 100 ≥ threshold] *)
Definition percentagePass (r : Rules) (eligible : list string) (approvals : list Approval) : bool :=
  let decided := length (decidedIds eligible approvals) in
  let approved := length (approvedDecidedIds eligible approvals) in
  pr_enabled (r_percentageRule r)
  && bool_decide (0 < decided)
  && bool_decide (pr_threshold (r_percentageRule r) * decided ≤ 100 * approved).

(** [pass = hybrid.enabled ? (unanimous ∨ percentagePass) : unanimous] *)
Definition pass (r : Rules) (eligible : list string) (approvals : list Approval) : bool :=
  if r_hybrid r
  then unanimous eligible approvals || percentagePass r eligible approvals
  else unanimous eligible approvals.

(** The step advanced: the cursor moved on by one, or the expense was
    concluded as approved. *)
Definition advanced (e e' : Expense) : Prop :=
  stepIndex (e_approvals e') = S (stepIndex (e_approvals e))
  ∨ e_status e' = APPROVED.

(** Pass condition of section 4.3, step 6 and 7, for an evaluation function
    [eval]. *)
Definition PassRule (eval : string → Store → Expense → Expense) : Prop :=
  ∀ now db e step,
    e_status e = PENDING →
    steps (e_approvals e) !! stepIndex (e_approvals e) = Some step →
    Forall (λ a, ap_decision a ≠ REJECT) (st_approvals step) →
    eligibleApprovers db e (st_role step) ≠ [] →
    advanced e (eval now db e)
    ↔ pass (getRules db) (eligibleApprovers db e (st_role step)) (st_approvals step) = true.

(** Specific-approver short-circuit of section 4.3, step 2, for an
    evaluation function [eval]. *)
Definition SpecificApproverRuleHolds (eval : string → Store → Expense → Expense) : Prop :=
  ∀ now db e step s a u,
    sa_enabled (r_specificApproverRule (getRules db)) = true →
    e_status e = PENDING →
    steps (e_approvals e) !! stepIndex (e_approvals e) = Some step →
    s ∈ steps (e_approvals e) → a ∈ st_approvals s →
    ap_decision a = APPROVE →
    findUser (ap_userId a) (getUsers db) = Some u →
    sa_role (r_specificApproverRule (getRules db)) ∈ u_roles u →
    e_status (eval now db e) = APPROVED
    ∧ stepIndex (e_approvals (eval now db e)) = length (steps (e_approvals (eval now db e)))
    ∧ ∃ h, last (e_history (eval now db e)) = Some h ∧ h_status h = APPROVED.

(** Auto-skip of section 4.3, step 5, for an evaluation function [eval]:
    with an empty eligible set at the current step (the rejection
    short-circuit of step 3 not having fired) the cursor advances; the
    expense is concluded APPROVED if that exhausts the chain and remains
    PENDING at the advanced cursor otherwise. *)
Definition AutoSkipRule (eval : string → Store → Expense → Expense) : Prop :=
  ∀ now db e step,
    e_status e = PENDING →
    steps (e_approvals e) !! stepIndex (e_approvals e) = Some step →
    Forall (λ a, ap_decision a ≠ REJECT) (st_approvals step) →
    eligibleApprovers db e (st_role step) = [] →
    stepIndex (e_approvals (eval now db e)) = S (stepIndex (e_approvals e))
    ∧ e_status (eval now db e) =
        if bool_decide (length (steps (e_approvals e)) ≤ S (stepIndex (e_approvals e)))
        then APPROVED else PENDING.

(** Removal of a built-in role is refused with an error and changes
    nothing (section 4.1), for a removal function [remove]. *)
Definition BuiltinRemovalRefused (remove : string → Store → Store * result unit) : Prop :=
  ∀ name db, name ∈ BASE_ROLES →
    ∃ msg, remove name db = (db, Throw msg).

End Spec.

(** ** Sample data: the users and rule set [seedIfNeeded] installs *)

Module Sample.

Definition seedUsers : list User :=
  [ mkUser "u-admin" [ROLES.ADMIN] "";
    mkUser "u-manager" [ROLES.MANAGER] "";
    mkUser "u-emp" [ROLES.EMPLOYEE] "u-manager";
    mkUser "u-fin" [ROLES.FINANCE] "";
    mkUser "u-dir" [ROLES.DIRECTOR] "";
    mkUser "u-cfo" [ROLES.FINANCE; ROLES.CFO] "" ].

(** A fresh expense of the employee under the default rule set. *)
Definition lunch : Expense :=
  mkExpense "x1" "u-emp" PENDING
    (mkApprovals 0 [mkStep ROLES.MANAGER []; mkStep ROLES.FINANCE []; mkStep ROLES.DIRECTOR []])
    [mkHistory "t0" PENDING "u-emp"].

(** The seeded approved and rejected expenses. *)
Definition flight : Expense :=
  mkExpense "x2" "u-emp" APPROVED
    (mkApprovals 3
       [mkStep ROLES.MANAGER [mkApproval "u-manager" APPROVE "OK" "t1"];
        mkStep ROLES.FINANCE [mkApproval "u-fin" APPROVE "Budgeted" "t2"];
        mkStep ROLES.DIRECTOR [mkApproval "u-dir" APPROVE "Approved" "t3"]])
    [mkHistory "t3" APPROVED "u-dir"].

Definition cushion : Expense :=
  mkExpense "x3" "u-emp" REJECTED
    (mkApprovals 0
       [mkStep ROLES.MANAGER [mkApproval "u-manager" REJECT "Not needed" "t1"];
        mkStep ROLES.FINANCE [];
        mkStep ROLES.DIRECTOR []])
    [mkHistory "t1" REJECTED "u-manager"].

Definition db : Store :=
  mkStore seedUsers [lunch; flight; cushion] (Some DEFAULT_RULES) [].

(** The default rule set with the hybrid and percentage rules switched off. *)
Definition unanimousRules : Rules :=
  mkRules [ROLES.MANAGER; ROLES.FINANCE; ROLES.DIRECTOR]
          (mkPercentageRule false 50)
          (mkSpecificApproverRule true ROLES.CFO)
          false.

(** An expense waiting at the FINANCE step, which two users hold, after
    one of the two has approved. *)
Definition atFinance : Expense :=
  mkExpense "x4" "u-emp" PENDING
    (mkApprovals 1
       [mkStep ROLES.MANAGER [mkApproval "u-manager" APPROVE "" "t1"];
        mkStep ROLES.FINANCE [mkApproval "u-fin" APPROVE "" "t2"];
        mkStep ROLES.DIRECTOR []])
    [mkHistory "t0" PENDING "u-emp"].

Definition dbUnanimous : Store :=
  mkStore seedUsers [atFinance] (Some unanimousRules) [].

(** The same expense before that approval was recorded, and the store
    holding it. *)
Definition beforeFinance : Expense :=
  mkExpense "x4" "u-emp" PENDING
    (mkApprovals 1
       [mkStep ROLES.MANAGER [mkApproval "u-manager" APPROVE "" "t1"];
        mkStep ROLES.FINANCE [];
        mkStep ROLES.DIRECTOR []])
    [mkHistory "t0" PENDING "u-emp"].

Definition dbBeforeFinance : Store :=
  mkStore seedUsers [beforeFinance] (Some unanimousRules) [].

(** The CFO has approved at the first step of a three-step expense; the
    rule set in force has meanwhile been cut down to two steps. *)
Definition cfoAtManager : Expense :=
  mkExpense "x5" "u-emp" PENDING
    (mkApprovals 0
       [mkStep ROLES.MANAGER [mkApproval "u-cfo" APPROVE "" "t1"];
        mkStep ROLES.FINANCE [];
        mkStep ROLES.DIRECTOR []])
    [mkHistory "t0" PENDING "u-emp"].

Definition twoStepRules : Rules :=
  mkRules [ROLES.MANAGER; ROLES.FINANCE]
          (mkPercentageRule true 50)
          (mkSpecificApproverRule true ROLES.CFO)
          true.

Definition dbTwoSteps : Store :=
  mkStore seedUsers [cfoAtManager] (Some twoStepRules) [].

(** Under the default rule set the manager has approved at the first step
    and the CFO, who also holds FINANCE, at the second. *)
Definition cfoAtFinance : Expense :=
  mkExpense "x8" "u-emp" PENDING
    (mkApprovals 1
       [mkStep ROLES.MANAGER [mkApproval "u-manager" APPROVE "" "t1"];
        mkStep ROLES.FINANCE [mkApproval "u-cfo" APPROVE "" "t2"];
        mkStep ROLES.DIRECTOR []])
    [mkHistory "t0" PENDING "u-emp"].

Definition dbCfoAtFinance : Store :=
  mkStore seedUsers [cfoAtFinance] (Some DEFAULT_RULES) [].

(** A rejection recorded at the first step after an approval. *)
Definition rejectedAtManager : Expense :=
  mkExpense "x6" "u-emp" PENDING
    (mkApprovals 0
       [mkStep ROLES.MANAGER [mkApproval "u-admin" APPROVE "" "t1";
                              mkApproval "u-manager" REJECT "no" "t2"];
        mkStep ROLES.FINANCE [];
        mkStep ROLES.DIRECTOR []])
    [mkHistory "t0" PENDING "u-emp"].

(** An expense of the manager, who has no manager of their own. *)
Definition ownExpense : Expense :=
  mkExpense "x7" "u-manager" PENDING
    (mkApprovals 0 [mkStep ROLES.MANAGER []; mkStep ROLES.FINANCE []])
    [mkHistory "t0" PENDING "u-manager"].

(** An expense of the manager under a rule set whose only step is
    MANAGER, and the store holding it. *)
Definition ownSingle : Expense :=
  mkExpense "x9" "u-manager" PENDING
    (mkApprovals 0 [mkStep ROLES.MANAGER []])
    [mkHistory "t0" PENDING "u-manager"].

Definition dbSingleStep : Store :=
  mkStore seedUsers [ownSingle]
          (Some (mkRules [ROLES.MANAGER] (mkPercentageRule true 50)
                         (mkSpecificApproverRule true ROLES.CFO) true))
          [].

(** An expense of the manager under the default rule set. *)
Definition ownDefault : Expense :=
  mkExpense "x10" "u-manager" PENDING
    (mkApprovals 0 [mkStep ROLES.MANAGER []; mkStep ROLES.FINANCE []; mkStep ROLES.DIRECTOR []])
    [mkHistory "t0" PENDING "u-manager"].

(** A store with a custom role in use everywhere. *)
Definition dbAuditor : Store :=
  mkStore (mkUser "u-aud" [ROLES.FINANCE; "AUDITOR"] "" :: seedUsers)
          [lunch]
          (Some (mkRules ["AUDITOR"] (mkPercentageRule true 50)
                         (mkSpecificApproverRule true "AUDITOR") true))
          ["AUDITOR"].

End Sample.

(** ** Observations used in the statements *)

(** The role names of an expense's own chain, in order. *)
Definition roleSequence (e : Expense) : list string :=
  st_role <$> steps (e_approvals e).

(** Some decision of the list is an APPROVE by [id]. *)
Definition approvedBy (approvals : list Approval) (id : string) : Prop :=
  ∃ a, a ∈ approvals ∧ ap_userId a = id ∧ ap_decision a = APPROVE.

(** [a] is an APPROVE decision of a stored user who holds [role]: what the
    override scan of the earlier revision looks for. *)
Definition approvesHolding (db : Store) (role : string) (a : Approval) : Prop :=
  ap_decision a = APPROVE
  ∧ ∃ u, findUser (ap_userId a) (getUsers db) = Some u ∧ role ∈ u_roles u.

(** Five operations of src/js/app.js on the store: submitting an expense,
    recording a decision, overriding, saving the rules form and removing a
    role. (Company setup, which starts the store afresh, is not among
    them.) *)
Inductive Op :=
| OpSubmit (now id userId : string)
| OpDecide (nowPush nowEval expenseId userId decision comment : string)
| OpOverride (now expenseId status adminId : string)
| OpSaveRules (r : Rules)
| OpRemoveRole (role : string).

(** The store an operation leaves behind (as it was, if the operation
    throws). *)
Definition runOp (op : Op) (db : Store) : Store :=
  match op with
  | OpSubmit now id userId => AppAdmin.handleExpenseSubmit now id userId db
  | OpDecide nowPush nowEval expenseId userId decision comment =>
    (App.approveOrReject nowPush nowEval db expenseId userId decision comment).1
  | OpOverride now expenseId status adminId =>
    (App.adminOverride now db expenseId status adminId).1
  | OpSaveRules r => setRules r db
  | OpRemoveRole role => AppAdmin.removeRole role db
  end.

Definition run (ops : list Op) (db : Store) : Store :=
  foldl (λ db op, runOp op db) db ops.

(** ** Further functions of src/js/app.js *)

(** *** Which expenses a user is shown *)

Module AppViews.

(** [listExpensesFor(user)]. With an unset [managerId] written [""] the
    test [u.managerId === user.id] is rendered exactly for a user whose id
    is not empty (ids are [uuid()] values or the seeded literals); the
    statements that read the team branch assume as much. *)
Definition listExpensesFor (db : Store) (user : User) : list Expense :=
  let all := getExpenses db in
  if hasRole user (RoleName ROLES.ADMIN) || hasRole user (RoleName ROLES.CFO) then all
  else if hasRole user (RoleName ROLES.MANAGER) then
    let teamIds := u_id <$> filter (λ u, u_managerId u = u_id user) (getUsers db) in
    filter (λ e, e_userId e ∈ teamIds ∨ e_userId e = u_id user) all
  else if hasRole user (RoleName ROLES.FINANCE) || hasRole user (RoleName ROLES.DIRECTOR) then
    (* approver sees all pending + their own *)
    filter (λ e, e_status e = PENDING ∨ e_userId e = u_id user) all
  else
    (* employee: own *)
    filter (λ e, e_userId e = u_id user) all.

Definition canCurrentUserSubmitExpense (user : User) : bool :=
  hasRole user (RoleName ROLES.EMPLOYEE).

End AppViews.

(** *** Deleting a user *)

Module AppUsers.


End AppUsers.

(** *** Adding a role *)

Module AppRoles.

(** Role names are handled as lists of characters. The three string
    operations below are those of JavaScript on ASCII text, the text for
    which a character of [string] and a UTF-16 code unit are the same
    thing. *)

(** White space of [trim] and of [\s] within ASCII: tab, line feed,
    vertical tab, form feed, carriage return, space. *)
Definition isSpace (c : ascii) : bool :=
  let n := nat_of_ascii c in
  bool_decide (n = 32) || (bool_decide (9 ≤ n) && bool_decide (n ≤ 13)).

(** One character of [toUpperCase]. *)
Definition upperChar (c : ascii) : ascii :=
  let n := nat_of_ascii c in
  if bool_decide (97 ≤ n) && bool_decide (n ≤ 122) then ascii_of_nat (n - 32) else c.

(** The class [A-Z0-9_\-]. *)
Definition isRoleChar (c : ascii) : bool :=
  let n := nat_of_ascii c in
  (bool_decide (65 ≤ n) && bool_decide (n ≤ 90))
  || (bool_decide (48 ≤ n) && bool_decide (n ≤ 57))
  || bool_decide (n = 95) || bool_decide (n = 45).

Fixpoint dropSpaces (l : list ascii) : list ascii :=
  match l with
  | c :: l' => if isSpace c then dropSpaces l' else l
  | [] => []
  end.

(** [trim()] *)
Definition trim (l : list ascii) : list ascii :=
  reverse (dropSpaces (reverse (dropSpaces l))).

(** [replace(/\s+/g, '_')]: [inRun] tells that the previous character was
    white space, already replaced. *)
Fixpoint replaceSpaceRuns (inRun : bool) (l : list ascii) : list ascii :=
  match l with
  | [] => []
  | c :: l' =>
    if isSpace c then
      if inRun then replaceSpaceRuns true l'
      else "_"%char :: replaceSpaceRuns true l'
    else c :: replaceSpaceRuns false l'
  end.

Definition toUpperCase (s : string) : string :=
  String.string_of_list_ascii (upperChar <$> String.list_ascii_of_string s).

(** [input.trim().toUpperCase().replace(/\s+/g, '_').replace(/[^A-Z0-9_\-]/g, '')] *)
Definition normalizeRoleName (input : string) : string :=
  String.string_of_list_ascii
    (filter (λ c, isRoleChar c = true)
       (replaceSpaceRuns false (upperChar <$> trim (String.list_ascii_of_string input)))).

(** [handleAddRole] for the text [input] of the role name field; the
    second component is the toast it shows. *)
Definition handleAddRole (input : string) (db : Store) : Store * string :=
  let role := normalizeRoleName input in
  if bool_decide (role = "") then (db, "Enter a role name")
  else if bool_decide (role ∈ BASE_ROLES) then (db, "This is already a built-in role")
  else
    let custom := getCustomRoles db in
    if bool_decide (role ∈ (toUpperCase <$> custom)) then (db, "Role already exists")
    else (setCustomRoles (custom ++ [role]) db, "Role added").

(** The two ways the role list is edited: the add form and a click in the
    roles list. *)
Inductive RoleOp :=
| RoleAdd (input : string)
| RoleClick (chip : option AppAdmin.Chip) (confirmed : bool).

Definition runRoleOp (op : RoleOp) (db : Store) : Store :=
  match op with
  | RoleAdd input => (handleAddRole input db).1
  | RoleClick chip confirmed => AppAdmin.onRolesListClick chip confirmed db
  end.

Definition runRoleOps (ops : list RoleOp) (db : Store) : Store :=
  foldl (λ db op, runRoleOp op db) db ops.

End AppRoles.

(** *** Utilities *)

Module Util.

(** [ToInt32]: the signed 32-bit value congruent to [z]. *)
Definition toInt32 (z : Z) : Z := ((z + 2 ^ 31) `mod` 2 ^ 32 - 2 ^ 31)%Z.

(** [h << 5] *)
Definition shiftLeft5 (h : Z) : Z := toInt32 (Z.shiftl (toInt32 h) 5).

(** One turn of the loop of the fallback of [hashText]:
    [h = ((h << 5) - h) + text.charCodeAt(i); h |= 0;]
    The sum stays far below 2^53, so the double arithmetic is exact. *)
Definition hashStep (h c : Z) : Z := toInt32 (shiftLeft5 h - h + c)%Z.

(** The number the fallback of [hashText] appends to ['h']:
    [Math.abs(h)] after the loop over the code units of the text. *)
Definition hashFallback (codes : list Z) : Z := Z.abs (foldl hashStep 0%Z codes).

(** The polynomial hash with multiplier 31, without any wrapping. *)
Definition poly31 (codes : list Z) : Z := foldl (λ h c, 31 * h + c)%Z 0%Z codes.

End Util.

(** *** What an operation may do to a stored expense *)

(** [e'] continues [e]: same identity and submitter, same roles along the
    chain, and every decision list and the history of [e] are the
    beginnings of those of [e']. *)
Definition continues (e e' : Expense) : Prop :=
  e_id e' = e_id e
  ∧ e_userId e' = e_userId e
  ∧ e_history e `prefix_of` e_history e'
  ∧ Forall2 (λ s s', st_role s' = st_role s ∧ st_approvals s `prefix_of` st_approvals s')
            (steps (e_approvals e)) (steps (e_approvals e')).

(** The shape every stored expense keeps: the cursor is within the chain
    or just past it, the steps after the cursor hold no decision, and a
    pending expense has no REJECT at its current step. *)
Definition wellFormed (e : Expense) : Prop :=
  stepIndex (e_approvals e) ≤ length (steps (e_approvals e))
  ∧ (∀ j s, stepIndex (e_approvals e) < j →
            steps (e_approvals e) !! j = Some s → st_approvals s = [])
  ∧ (e_status e = PENDING →
     ∀ s, steps (e_approvals e) !! stepIndex (e_approvals e) = Some s →
          Forall (λ a, ap_decision a ≠ REJECT) (st_approvals s)).


(** The custom role list as [handleAddRole] builds it: no duplicates, no
    built-in name, no empty name, only characters of [A-Z0-9_-]. *)
Definition customRolesClean (l : list string) : Prop :=
  NoDup l
  ∧ ∀ r, r ∈ l →
      (r ∉ BASE_ROLES) ∧ r ≠ ""
      ∧ Forall (λ c, AppRoles.isRoleChar c = true) (String.list_ascii_of_string r).

(** Text within ASCII, on which the string operations of [AppRoles] are
    those of JavaScript. *)
Definition asciiOnly (s : string) : Prop :=
  Forall (λ c, nat_of_ascii c < 128) (String.list_ascii_of_string s).

(** The role operations whose typed text is within ASCII. *)
Definition asciiRoleOp (op : AppRoles.RoleOp) : Prop :=
  match op with
  | AppRoles.RoleAdd input => asciiOnly input
  | AppRoles.RoleClick _ _ => True
  end.

(** * Properties of the engine *)

(** ** Lists and lookups *)

Lemma elem_of_uniqFrom (seen xs : list string) (x : string) :
  x ∈ uniqFrom seen xs ↔ x ∈ xs ∧ x ∉ seen.
Proof.
  revert seen. induction xs as [|y xs IH]; intros seen; simpl.
  - split; [intros H; inversion H | intros [H _]; inversion H].
  - case_bool_decide as Hy.
    + rewrite IH, elem_of_cons. split; [tauto|].
      intros [[->|?] ?]; [contradiction | tauto].
    + rewrite !elem_of_cons, IH, elem_of_cons. split.
      * intros [->|[? ?]]; tauto.
      * intros [[->|?] ?]; [tauto|].
        destruct (decide (x = y)); tauto.
Qed.

Lemma elem_of_arrayFromSet (xs : list string) (x : string) :
  x ∈ arrayFromSet xs ↔ x ∈ xs.
Proof.
  unfold arrayFromSet. rewrite elem_of_uniqFrom. split; [tauto|].
  intros H; split; [done|]. intros H'; inversion H'.
Qed.

Lemma existsb_isReject (l : list Approval) :
  existsb isReject l = true ↔ Exists (λ a, ap_decision a = REJECT) l.
Proof.
  induction l as [|a l IH]; simpl.
  - split; [discriminate | intros H; inversion H].
  - rewrite orb_true_iff, IH, Exists_cons. unfold isReject.
    by rewrite bool_decide_eq_true.
Qed.

Lemma existsb_isReject_false (l : list Approval) :
  existsb isReject l = false ↔ Forall (λ a, ap_decision a ≠ REJECT) l.
Proof.
  induction l as [|a l IH]; simpl.
  - split; [constructor | done].
  - rewrite orb_false_iff, IH, Forall_cons. unfold isReject.
    by rewrite bool_decide_eq_false.
Qed.

Lemma filter_nothing {A : Type} (l : list A) :
  filter (λ _ : A, false = true) l = [].
Proof. induction l as [|x l IH]; [done|]. by rewrite filter_cons_False. Qed.

Lemma findExpense_Some (expenseId : string) (l : list Expense) (i : nat) (e : Expense) :
  findExpense expenseId l = Some (i, e) → l !! i = Some e ∧ e_id e = expenseId.
Proof. unfold findExpense. rewrite list_find_Some. tauto. Qed.

(** Writing back an expense with the same id at the index where it was
    found leaves it the first hit of a search for that id. *)
Lemma findExpense_insert (expenseId : string) (l : list Expense) (i : nat) (e e' : Expense) :
  findExpense expenseId l = Some (i, e) → e_id e' = expenseId →
  findExpense expenseId (<[i := e']> l) = Some (i, e').
Proof.
  unfold findExpense. rewrite !list_find_Some. intros (Hi & Hid & Hmin) Hid'.
  split_and!; [|done|].
  - apply list_lookup_insert_eq. by eapply lookup_lt_Some.
  - intros j y Hj Hlt. rewrite list_lookup_insert_ne in Hj by lia. eauto.
Qed.

(** ** One evaluation step of src/js/app.js *)

(** The role value [rulesEval] hands to [eligibleApproverIds] is the step
    record itself, which no role list contains and which is not the string
    MANAGER: the list of eligible ids is empty. *)
Lemma App_eligible_of_step_record (db : Store) (e : Expense) (s : Step) :
  App.eligibleApproverIds db e (StepRecord s) = [].
Proof. unfold App.eligibleApproverIds. simpl. by rewrite filter_nothing. Qed.

(** Handed the role name, the function computes the eligible set of
    section 4.2. *)
Lemma App_eligible_of_role_name (db : Store) (e : Expense) (role : string) :
  role ≠ "" →
  App.eligibleApproverIds db e (RoleName role) = Spec.eligibleApprovers db e role.
Proof.
  intros Hne. unfold App.eligibleApproverIds, Spec.eligibleApprovers. simpl.
  rewrite (bool_decide_eq_false_2 _ Hne). simpl.
  case_bool_decide; [done|]. f_equal.
  apply list_filter_iff. intros u. unfold roleList.
  by rewrite bool_decide_eq_true.
Qed.

Lemma App_rulesEval_active (now : string) (db : Store) (e : Expense) (step : Step) :
  steps (e_approvals e) !! stepIndex (e_approvals e) = Some step →
  App.rulesEval now db e =
    if existsb isReject (st_approvals step) then
      recordHistory now (setStatus REJECTED e) REJECTED (lastUserId (st_approvals step))
    else App.advance now e (st_approvals step).
Proof.
  intros Hstep. unfold App.rulesEval, App.getCurrentStep. simpl.
  rewrite Hstep. simpl. rewrite App_eligible_of_step_record. simpl.
  reflexivity.
Qed.

Lemma App_rulesEval_finished (now : string) (db : Store) (e : Expense) :
  steps (e_approvals e) !! stepIndex (e_approvals e) = None →
  App.rulesEval now db e = e.
Proof.
  intros Hstep. unfold App.rulesEval, App.getCurrentStep. simpl.
  by rewrite Hstep.
Qed.

Lemma App_advance_steps (now : string) (e : Expense) (l : list Approval) :
  steps (e_approvals (App.advance now e l)) = steps (e_approvals e)
  ∧ e_id (App.advance now e l) = e_id e.
Proof. unfold App.advance. by case_bool_decide. Qed.

(** Evaluation never touches the chain of steps or the identity of the
    expense. *)
Lemma App_rulesEval_steps (now : string) (db : Store) (e : Expense) :
  steps (e_approvals (App.rulesEval now db e)) = steps (e_approvals e)
  ∧ e_id (App.rulesEval now db e) = e_id e.
Proof.
  destruct (steps (e_approvals e) !! stepIndex (e_approvals e)) as [step|] eqn:Hstep.
  - rewrite (App_rulesEval_active _ _ _ _ Hstep).
    destruct (existsb isReject (st_approvals step)); [done|].
    apply App_advance_steps.
  - by rewrite (App_rulesEval_finished _ _ _ Hstep).
Qed.

(** C3. In src/js/app.js, when the current step of an expense holds a
    REJECT decision, evaluation sets the status to REJECTED whatever
    APPROVE decisions the step also holds, appends one history entry
    attributed to the author of the most recent decision of the step, and
    leaves the cursor and every step (hence the later ones) as they were. *)
Theorem C3_reject_short_circuit (now : string) (db : Store) (e : Expense) (step : Step) :
  steps (e_approvals e) !! stepIndex (e_approvals e) = Some step →
  Exists (λ a, ap_decision a = REJECT) (st_approvals step) →
  ∃ a, last (st_approvals step) = Some a
    ∧ App.rulesEval now db e =
        mkExpense (e_id e) (e_userId e) REJECTED (e_approvals e)
                  (e_history e ++ [mkHistory now REJECTED (ap_userId a)]).
Proof.
  intros Hstep Hrej. rewrite (App_rulesEval_active _ _ _ _ Hstep).
  rewrite (proj2 (existsb_isReject _) Hrej).
  destruct (last (st_approvals step)) as [a|] eqn:Hlast.
  - exists a. split; [done|]. unfold lastUserId. by rewrite Hlast.
  - apply last_None in Hlast. rewrite Hlast in Hrej. inversion Hrej.
Qed.

Lemma C3_witness :
  ∃ a, last [mkApproval "u-admin" APPROVE "" "t1"; mkApproval "u-manager" REJECT "no" "t2"] = Some a
    ∧ App.rulesEval "t3" Sample.db Sample.rejectedAtManager =
        mkExpense "x6" "u-emp" REJECTED (e_approvals Sample.rejectedAtManager)
                  ([mkHistory "t0" PENDING "u-emp"] ++ [mkHistory "t3" REJECTED (ap_userId a)]).
Proof.
  apply (C3_reject_short_circuit "t3" Sample.db Sample.rejectedAtManager
           (mkStep ROLES.MANAGER [mkApproval "u-admin" APPROVE "" "t1";
                                  mkApproval "u-manager" REJECT "no" "t2"])).
  - reflexivity.
  - apply Exists_cons_tl, Exists_cons_hd. reflexivity.
Defined.

(** ** Recording a decision *)

Lemma App_approverEntry_lookup (e : Expense) :
  App.approverEntry e = steps (e_approvals e) !! stepIndex (e_approvals e).
Proof.
  unfold App.approverEntry, App.getCurrentStep.
  by destruct (steps (e_approvals e) !! stepIndex (e_approvals e)).
Qed.

Lemma pushApproval_lookup (idx : nat) (a : Approval) (e : Expense) (step : Step) :
  steps (e_approvals e) !! idx = Some step →
  steps (e_approvals (pushApproval idx a e)) !! idx
  = Some (mkStep (st_role step) (st_approvals step ++ [a])).
Proof.
  intros Hstep. unfold pushApproval. simpl.
  rewrite list_lookup_alter, decide_True by done. by rewrite Hstep.
Qed.

Lemma pushApproval_roles (idx : nat) (a : Approval) (e : Expense) :
  roleSequence (pushApproval idx a e) = roleSequence e.
Proof.
  unfold roleSequence, pushApproval. simpl.
  generalize (steps (e_approvals e)). intros l. revert idx.
  induction l as [|s l IH]; intros [|idx]; try done.
  change (st_role s :: (st_role <$> alter (λ s0, mkStep (st_role s0) (st_approvals s0 ++ [a])) idx l)
          = st_role s :: (st_role <$> l)).
  by rewrite IH.
Qed.

Lemma App_approveOrReject_active (nowPush nowEval : string) (db : Store)
    (expenseId userId decision comment : string) (i : nat) (expense : Expense) (step : Step) :
  findExpense expenseId (getExpenses db) = Some (i, expense) →
  e_status expense = PENDING →
  steps (e_approvals expense) !! stepIndex (e_approvals expense) = Some step →
  App.approveOrReject nowPush nowEval db expenseId userId decision comment
  = let a := mkApproval userId (normalizeDecision decision) comment nowPush in
    let expense' :=
      App.rulesEval nowEval db (pushApproval (stepIndex (e_approvals expense)) a expense) in
    (setExpenses (<[i := expense']> (getExpenses db)) db, Ok (e_status expense')).
Proof.
  intros Hfind Hpend Hstep. unfold App.approveOrReject.
  rewrite Hfind, Hpend. simpl.
  by rewrite App_approverEntry_lookup, Hstep.
Qed.

(** C10. In src/js/app.js, a call of approveOrReject on a pending expense
    with an active step appends to that step a record whose decision is
    APPROVE exactly when the [decision] argument is the string "APPROVE";
    every other argument is recorded as REJECT, and the evaluation that
    follows then rejects the expense: the stored status and the returned
    status are REJECTED. *)
Theorem C10_decision_normalised (nowPush nowEval : string) (db : Store)
    (expenseId userId decision comment : string) (i : nat) (expense : Expense) (step : Step) :
  findExpense expenseId (getExpenses db) = Some (i, expense) →
  e_status expense = PENDING →
  steps (e_approvals expense) !! stepIndex (e_approvals expense) = Some step →
  ∃ d expense',
    App.approveOrReject nowPush nowEval db expenseId userId decision comment
    = (setExpenses (<[i := expense']> (getExpenses db)) db, Ok (e_status expense'))
    ∧ steps (e_approvals expense') !! stepIndex (e_approvals expense)
      = Some (mkStep (st_role step)
                     (st_approvals step ++ [mkApproval userId d comment nowPush]))
    ∧ (d = APPROVE ↔ decision = "APPROVE")
    ∧ (decision ≠ "APPROVE" → d = REJECT ∧ e_status expense' = REJECTED).
Proof.
  intros Hfind Hpend Hstep.
  set (a := mkApproval userId (normalizeDecision decision) comment nowPush).
  set (pushed := pushApproval (stepIndex (e_approvals expense)) a expense).
  exists (normalizeDecision decision), (App.rulesEval nowEval db pushed).
  assert (Hpushed : steps (e_approvals pushed) !! stepIndex (e_approvals pushed)
                    = Some (mkStep (st_role step) (st_approvals step ++ [a]))).
  { apply (pushApproval_lookup _ a _ _ Hstep). }
  split_and!.
  - by rewrite (App_approveOrReject_active _ _ _ _ _ _ _ _ _ _ Hfind Hpend Hstep).
  - rewrite (proj1 (App_rulesEval_steps _ _ _)). exact Hpushed.
  - unfold normalizeDecision. case_bool_decide; split; done.
  - intros Hne. unfold normalizeDecision in *.
    assert (Hd : (if bool_decide (decision = "APPROVE") then APPROVE else REJECT) = REJECT)
      by (by rewrite bool_decide_eq_false_2).
    split; [done|].
    rewrite (App_rulesEval_active _ _ _ _ Hpushed). simpl.
    rewrite existsb_app. simpl. unfold isReject at 2. simpl.
    subst a. simpl. rewrite Hd. simpl. by rewrite orb_true_r.
Qed.

Lemma C10_witness :
  ∃ d expense',
    App.approveOrReject "t1" "t2" Sample.db "x1" "u-manager" "approve" "fine"
    = (setExpenses (<[0 := expense']> (getExpenses Sample.db)) Sample.db,
       Ok (e_status expense'))
    ∧ steps (e_approvals expense') !! 0
      = Some (mkStep ROLES.MANAGER ([] ++ [mkApproval "u-manager" d "fine" "t1"]))
    ∧ (d = APPROVE ↔ "approve" = "APPROVE")
    ∧ ("approve" ≠ "APPROVE" → d = REJECT ∧ e_status expense' = REJECTED).
Proof.
  apply (C10_decision_normalised "t1" "t2" Sample.db "x1" "u-manager" "approve" "fine"
           0 Sample.lunch (mkStep ROLES.MANAGER [])); reflexivity.
Defined.

(** ** Terminal expenses and the administrator's override *)

Lemma terminal_not_pending (e : Expense) :
  e_status e = APPROVED ∨ e_status e = REJECTED →
  bool_decide (e_status e = PENDING) = false.
Proof. intros [-> | ->]; reflexivity. Qed.

Lemma App_adminOverride_found (now : string) (db : Store)
    (expenseId status adminId : string) (i : nat) (e : Expense) :
  findExpense expenseId (getExpenses db) = Some (i, e) →
  App.adminOverride now db expenseId status adminId
  = (setExpenses
       (<[i := mkExpense (e_id e) (e_userId e) status
                 (mkApprovals (length (steps (e_approvals e))) (steps (e_approvals e)))
                 (e_history e ++ [mkHistory now status adminId])]> (getExpenses db)) db,
     Ok tt).
Proof. intros Hfind. unfold App.adminOverride. by rewrite Hfind. Qed.

Lemma Legacy_adminOverride_found (now : string) (db : Store)
    (expenseId status adminId : string) (i : nat) (e : Expense) :
  findExpense expenseId (getExpenses db) = Some (i, e) →
  Legacy.adminOverride now db expenseId status adminId
  = (setExpenses
       (<[i := mkExpense (e_id e) (e_userId e) status
                 (mkApprovals (length (r_steps (getRules db))) (steps (e_approvals e)))
                 (e_history e ++ [mkHistory now status adminId])]> (getExpenses db)) db,
     Ok tt).
Proof. intros Hfind. unfold Legacy.adminOverride. by rewrite Hfind. Qed.

(** C6. For an expense found under [expenseId] whose status is APPROVED or
    REJECTED, approveOrReject fails with the "not pending" error and leaves
    the whole store, hence the expense, as it was; adminOverride on the
    same expense succeeds for every target status, the expense then has
    that status, and so its status can be changed again. Both hold in
    src/js/app.js and in the earlier revision. *)
Theorem C6_terminal_state (db : Store) (expenseId : string) (i : nat) (e : Expense) :
  findExpense expenseId (getExpenses db) = Some (i, e) →
  e_status e = APPROVED ∨ e_status e = REJECTED →
  (∀ nowPush nowEval userId decision comment,
     App.approveOrReject nowPush nowEval db expenseId userId decision comment
     = (db, Throw NotPending)
     ∧ Legacy.approveOrReject nowPush nowEval db expenseId userId decision comment
       = (db, Throw NotPending))
  ∧ (∀ now target adminId, ∃ db' e',
       App.adminOverride now db expenseId target adminId = (db', Ok tt)
       ∧ findExpense expenseId (getExpenses db') = Some (i, e')
       ∧ e_status e' = target)
  ∧ (∀ now target adminId, ∃ db' e',
       Legacy.adminOverride now db expenseId target adminId = (db', Ok tt)
       ∧ findExpense expenseId (getExpenses db') = Some (i, e')
       ∧ e_status e' = target)
  ∧ (∃ now target adminId db' e',
       App.adminOverride now db expenseId target adminId = (db', Ok tt)
       ∧ findExpense expenseId (getExpenses db') = Some (i, e')
       ∧ e_status e' ≠ e_status e).
Proof.
  intros Hfind Hterm.
  pose proof (terminal_not_pending _ Hterm) as Hnp.
  destruct (findExpense_Some _ _ _ _ Hfind) as [_ Hid].
  assert (HApp : ∀ now target adminId, ∃ db' e',
             App.adminOverride now db expenseId target adminId = (db', Ok tt)
             ∧ findExpense expenseId (getExpenses db') = Some (i, e')
             ∧ e_status e' = target).
  { intros now target adminId. eexists _, _. split_and!.
    - apply (App_adminOverride_found _ _ _ _ _ _ _ Hfind).
    - simpl. by apply (findExpense_insert _ _ _ e).
    - reflexivity. }
  split_and!.
  - intros. unfold App.approveOrReject, Legacy.approveOrReject.
    by rewrite Hfind, Hnp.
  - exact HApp.
  - intros now target adminId. eexists _, _. split_and!.
    + apply (Legacy_adminOverride_found _ _ _ _ _ _ _ Hfind).
    + simpl. by apply (findExpense_insert _ _ _ e).
    + reflexivity.
  - destruct Hterm as [Hs | Hs].
    + destruct (HApp "" REJECTED "") as (db' & e' & H1 & H2 & H3).
      exists "", REJECTED, "", db', e'. split_and!; [done..|].
      rewrite H3, Hs. discriminate.
    + destruct (HApp "" APPROVED "") as (db' & e' & H1 & H2 & H3).
      exists "", APPROVED, "", db', e'. split_and!; [done..|].
      rewrite H3, Hs. discriminate.
Qed.

Lemma C6_witness :
  (∀ nowPush nowEval userId decision comment,
     App.approveOrReject nowPush nowEval Sample.db "x2" userId decision comment
     = (Sample.db, Throw NotPending)
     ∧ Legacy.approveOrReject nowPush nowEval Sample.db "x2" userId decision comment
       = (Sample.db, Throw NotPending))
  ∧ (∀ now target adminId, ∃ db' e',
       App.adminOverride now Sample.db "x2" target adminId = (db', Ok tt)
       ∧ findExpense "x2" (getExpenses db') = Some (1, e')
       ∧ e_status e' = target)
  ∧ (∀ now target adminId, ∃ db' e',
       Legacy.adminOverride now Sample.db "x2" target adminId = (db', Ok tt)
       ∧ findExpense "x2" (getExpenses db') = Some (1, e')
       ∧ e_status e' = target)
  ∧ (∃ now target adminId db' e',
       App.adminOverride now Sample.db "x2" target adminId = (db', Ok tt)
       ∧ findExpense "x2" (getExpenses db') = Some (1, e')
       ∧ e_status e' ≠ e_status Sample.flight).
Proof.
  apply (C6_terminal_state Sample.db "x2" 1 Sample.flight).
  - reflexivity.
  - left. reflexivity.
Defined.

(** C7. In src/js/app.js, for every expense found under [expenseId] and
    every target status, whatever the expense's current status,
    adminOverride succeeds; afterwards the expense has the target status,
    its cursor equals the length of its own (unchanged) chain of steps, its
    history is the old one followed by exactly one entry, for the target
    status and attributed to [adminId]; the other expenses, the users, the
    rule set and the role list are as before. *)
Theorem C7_admin_override (now : string) (db : Store)
    (expenseId target adminId : string) (i : nat) (e : Expense) :
  findExpense expenseId (getExpenses db) = Some (i, e) →
  ∃ db' e',
    App.adminOverride now db expenseId target adminId = (db', Ok tt)
    ∧ findExpense expenseId (getExpenses db') = Some (i, e')
    ∧ e_status e' = target
    ∧ steps (e_approvals e') = steps (e_approvals e)
    ∧ stepIndex (e_approvals e') = length (steps (e_approvals e'))
    ∧ e_history e' = e_history e ++ [mkHistory now target adminId]
    ∧ (∀ j, j ≠ i → getExpenses db' !! j = getExpenses db !! j)
    ∧ length (getExpenses db') = length (getExpenses db)
    ∧ getUsers db' = getUsers db
    ∧ rules db' = rules db
    ∧ getCustomRoles db' = getCustomRoles db.
Proof.
  intros Hfind.
  destruct (findExpense_Some _ _ _ _ Hfind) as [_ Hid].
  eexists _, _. split_and!.
  - apply (App_adminOverride_found _ _ _ _ _ _ _ Hfind).
  - simpl. by apply (findExpense_insert _ _ _ e).
  - reflexivity.
  - reflexivity.
  - reflexivity.
  - reflexivity.
  - intros j Hj. simpl. by rewrite list_lookup_insert_ne.
  - simpl. by rewrite length_insert.
  - reflexivity.
  - reflexivity.
  - reflexivity.
Qed.

Lemma C7_witness :
  ∃ db' e',
    App.adminOverride "t9" Sample.db "x3" PENDING "u-admin" = (db', Ok tt)
    ∧ findExpense "x3" (getExpenses db') = Some (2, e')
    ∧ e_status e' = PENDING
    ∧ steps (e_approvals e') = steps (e_approvals Sample.cushion)
    ∧ stepIndex (e_approvals e') = length (steps (e_approvals e'))
    ∧ e_history e' = e_history Sample.cushion ++ [mkHistory "t9" PENDING "u-admin"]
    ∧ (∀ j, j ≠ 2 → getExpenses db' !! j = getExpenses Sample.db !! j)
    ∧ length (getExpenses db') = length (getExpenses Sample.db)
    ∧ getUsers db' = getUsers Sample.db
    ∧ rules db' = rules Sample.db
    ∧ getCustomRoles db' = getCustomRoles Sample.db.
Proof.
  apply (C7_admin_override "t9" Sample.db "x3" PENDING "u-admin" 2 Sample.cushion).
  reflexivity.
Defined.

(** ** The chain of an expense is a snapshot *)

Lemma App_rulesEval_roles (now : string) (db : Store) (e : Expense) :
  roleSequence (App.rulesEval now db e) = roleSequence e.
Proof. unfold roleSequence. by rewrite (proj1 (App_rulesEval_steps _ _ _)). Qed.

Lemma insert_same_roles (l : list Expense) (i : nat) (e e' : Expense) :
  l !! i = Some e → roleSequence e' = roleSequence e →
  roleSequence <$> <[i := e']> l = roleSequence <$> l.
Proof.
  intros Hi Hroles. rewrite list_fmap_insert, Hroles.
  apply list_insert_id. by rewrite list_lookup_fmap, Hi.
Qed.

Lemma App_approveOrReject_roles (nowPush nowEval : string) (db : Store)
    (expenseId userId decision comment : string) :
  roleSequence <$> getExpenses
    (App.approveOrReject nowPush nowEval db expenseId userId decision comment).1
  = roleSequence <$> getExpenses db.
Proof.
  unfold App.approveOrReject.
  destruct (findExpense expenseId (getExpenses db)) as [[i expense]|] eqn:Hfind; [|done].
  destruct (negb (bool_decide (e_status expense = PENDING))); [done|].
  destruct (App.approverEntry expense); [|done]. simpl.
  apply (insert_same_roles _ _ expense).
  - by apply findExpense_Some in Hfind as [? _].
  - by rewrite App_rulesEval_roles, pushApproval_roles.
Qed.

Lemma App_adminOverride_roles (now : string) (db : Store)
    (expenseId status adminId : string) :
  roleSequence <$> getExpenses (App.adminOverride now db expenseId status adminId).1
  = roleSequence <$> getExpenses db.
Proof.
  unfold App.adminOverride.
  destruct (findExpense expenseId (getExpenses db)) as [[i e]|] eqn:Hfind; [|done].
  simpl. apply (insert_same_roles _ _ e); [|done].
  by apply findExpense_Some in Hfind as [? _].
Qed.

Lemma runOp_roles (op : Op) (db : Store) :
  ∃ newer, roleSequence <$> getExpenses (runOp op db)
           = newer ++ (roleSequence <$> getExpenses db).
Proof.
  destruct op; simpl.
  - exists [r_steps (getRules db)]. unfold roleSequence. simpl.
    rewrite <- list_fmap_compose. by rewrite list_fmap_id.
  - exists []. apply App_approveOrReject_roles.
  - exists []. apply App_adminOverride_roles.
  - by exists [].
  - by exists [].
Qed.

(** Whatever sequence of operations runs, the role sequences of the
    expenses already stored stay as they are, in place, below those of the
    expenses submitted since. *)
Lemma run_roles (ops : list Op) (db : Store) :
  ∃ newer, roleSequence <$> getExpenses (run ops db)
           = newer ++ (roleSequence <$> getExpenses db).
Proof.
  revert db. induction ops as [|op ops IH]; intros db.
  - by exists [].
  - destruct (IH (runOp op db)) as [newer1 H1].
    destruct (runOp_roles op db) as [newer0 H0].
    exists (newer1 ++ newer0). unfold run in *. simpl.
    by rewrite H1, H0, app_assoc.
Qed.

(** C5. In src/js/app.js the chain of an expense is copied from the rule
    set when the expense is created: one empty step per entry of
    RuleSet.steps, in order, the cursor on the first. Whatever operations
    follow (further submissions, decisions, overrides, saved rule sets,
    removed roles), the role sequence of that chain, and so its length,
    stays the rule set's steps of the time of creation. Replacing the rule
    set, or removing a role from it, leaves the stored expenses as they
    are; recording a decision and overriding keep the role sequence of
    every stored chain; and the current step, the evaluation and the
    outcome of recording a decision are the same under every rule set:
    they read the expense's own chain. *)
Theorem C5_snapshot :
  (∀ now id userId db,
     ∃ e, getExpenses (AppAdmin.handleExpenseSubmit now id userId db) !! 0 = Some e
       ∧ e_id e = id
       ∧ roleSequence e = r_steps (getRules db)
       ∧ length (steps (e_approvals e)) = length (r_steps (getRules db))
       ∧ stepIndex (e_approvals e) = 0
       ∧ Forall (λ s, st_approvals s = []) (steps (e_approvals e)))
  ∧ (∀ now id userId db ops,
       ∃ newer,
         roleSequence <$> getExpenses (run ops (AppAdmin.handleExpenseSubmit now id userId db))
         = newer ++ r_steps (getRules db) :: (roleSequence <$> getExpenses db))
  ∧ (∀ r db, getExpenses (setRules r db) = getExpenses db)
  ∧ (∀ role db, getExpenses (AppAdmin.removeRole role db) = getExpenses db)
  ∧ (∀ nowPush nowEval db expenseId userId decision comment,
       roleSequence <$> getExpenses
         (App.approveOrReject nowPush nowEval db expenseId userId decision comment).1
       = roleSequence <$> getExpenses db)
  ∧ (∀ now db expenseId status adminId,
       roleSequence <$> getExpenses (App.adminOverride now db expenseId status adminId).1
       = roleSequence <$> getExpenses db)
  ∧ (∀ e, st_role <$> App.approverEntry e = roleSequence e !! stepIndex (e_approvals e))
  ∧ (∀ r now db e, App.rulesEval now (setRules r db) e = App.rulesEval now db e)
  ∧ (∀ r nowPush nowEval db expenseId userId decision comment,
       getExpenses
         (App.approveOrReject nowPush nowEval (setRules r db) expenseId userId decision comment).1
       = getExpenses
           (App.approveOrReject nowPush nowEval db expenseId userId decision comment).1
       ∧ (App.approveOrReject nowPush nowEval (setRules r db) expenseId userId decision comment).2
         = (App.approveOrReject nowPush nowEval db expenseId userId decision comment).2).
Proof.
  split_and!.
  - intros now id userId db. eexists. split_and!; try reflexivity.
    + unfold roleSequence. simpl. rewrite <- list_fmap_compose.
      apply list_fmap_id.
    + simpl. by rewrite length_fmap.
    + simpl. apply Forall_fmap, Forall_true. done.
  - intros now id userId db ops.
    destruct (run_roles ops (AppAdmin.handleExpenseSubmit now id userId db)) as [newer H].
    exists newer. rewrite H. do 2 f_equal. unfold roleSequence. simpl.
    rewrite <- list_fmap_compose. by rewrite list_fmap_id.
  - done.
  - done.
  - apply App_approveOrReject_roles.
  - apply App_adminOverride_roles.
  - intros e. rewrite App_approverEntry_lookup. unfold roleSequence.
    by rewrite list_lookup_fmap.
  - done.
  - intros. unfold App.approveOrReject.
    change (getExpenses (setRules r db)) with (getExpenses db).
    destruct (findExpense expenseId (getExpenses db)) as [[i expense]|]; [|done].
    destruct (negb (bool_decide (e_status expense = PENDING))); [done|].
    by destruct (App.approverEntry expense).
Qed.

(** ** Removing a role *)

Lemma removeRole_rules (role : string) (db : Store) :
  getRules (AppAdmin.removeRole role db)
  = mkRules
      (if bool_decide (length (filter (λ x, x ≠ role) (r_steps (getRules db))) = 0)
       then [ROLES.MANAGER; ROLES.FINANCE; ROLES.DIRECTOR]
       else filter (λ x, x ≠ role) (r_steps (getRules db)))
      (r_percentageRule (getRules db))
      (if bool_decide (sa_role (r_specificApproverRule (getRules db)) = role)
       then mkSpecificApproverRule (sa_enabled (r_specificApproverRule (getRules db))) ROLES.CFO
       else r_specificApproverRule (getRules db))
      (r_hybrid (getRules db)).
Proof. reflexivity. Qed.

Lemma not_elem_of_filter_ne (role : string) (l : list string) :
  role ∉ filter (λ x, x ≠ role) l.
Proof. rewrite list_elem_of_filter. tauto. Qed.

Lemma builtin_CFO : ROLES.CFO ∈ BASE_ROLES.
Proof. unfold BASE_ROLES. do 5 apply list_elem_of_further. apply list_elem_of_here. Qed.

Lemma default_chain_builtin (x : string) :
  x ∈ [ROLES.MANAGER; ROLES.FINANCE; ROLES.DIRECTOR] → x ∈ BASE_ROLES.
Proof.
  unfold BASE_ROLES. rewrite !elem_of_cons.
  intros [->|[->|[->|H]]]; [tauto..|inversion H].
Qed.

(** C9. In src/js/app.js, removing a custom role (a name that is not
    built in) strips it from the role list of every user and leaves the
    users otherwise as they were, sets specificApproverRule.role to CFO
    when it was the removed role and leaves it alone otherwise, and removes
    the role from RuleSet.steps, which becomes MANAGER, FINANCE, DIRECTOR
    when nothing is left; afterwards the role occurs in no user's roles,
    not in the steps, not as the specific approver and not in the custom
    role list. The other rule settings and the expenses are untouched. *)
Theorem C9_role_cascade (role : string) (db : Store) :
  role ∉ BASE_ROLES →
  let db' := AppAdmin.removeRole role db in
  let without := filter (λ x, x ≠ role) in
  getUsers db'
  = (λ u, mkUser (u_id u) (without (u_roles u)) (u_managerId u)) <$> getUsers db
  ∧ (∀ u, u ∈ getUsers db' → role ∉ u_roles u)
  ∧ sa_role (r_specificApproverRule (getRules db'))
    = (if bool_decide (sa_role (r_specificApproverRule (getRules db)) = role)
       then ROLES.CFO else sa_role (r_specificApproverRule (getRules db)))
  ∧ sa_role (r_specificApproverRule (getRules db')) ≠ role
  ∧ r_steps (getRules db')
    = (if bool_decide (without (r_steps (getRules db)) = [])
       then [ROLES.MANAGER; ROLES.FINANCE; ROLES.DIRECTOR]
       else without (r_steps (getRules db)))
  ∧ (role ∉ r_steps (getRules db'))
  ∧ (role ∉ getCustomRoles db')
  ∧ sa_enabled (r_specificApproverRule (getRules db'))
    = sa_enabled (r_specificApproverRule (getRules db))
  ∧ r_percentageRule (getRules db') = r_percentageRule (getRules db)
  ∧ r_hybrid (getRules db') = r_hybrid (getRules db)
  ∧ getExpenses db' = getExpenses db.
Proof.
  intros Hcustom db' without. subst db' without. rewrite removeRole_rules. simpl.
  assert (Hcfo : ROLES.CFO ≠ role).
  { intros <-. apply Hcustom, builtin_CFO. }
  split_and!.
  - reflexivity.
  - intros u. unfold AppAdmin.removeRole, getUsers. simpl.
    rewrite list_elem_of_fmap. intros (u0 & -> & _). simpl.
    apply not_elem_of_filter_ne.
  - by case_bool_decide.
  - case_bool_decide; simpl; congruence.
  - by destruct (filter (λ x, x ≠ role) (r_steps (getRules db))).
  - case_bool_decide.
    + intros Hin. by apply Hcustom, default_chain_builtin.
    + apply not_elem_of_filter_ne.
  - unfold AppAdmin.removeRole, getCustomRoles. simpl.
    rewrite elem_of_arrayFromSet. apply not_elem_of_filter_ne.
  - by case_bool_decide.
  - reflexivity.
  - reflexivity.
  - reflexivity.
Qed.

Lemma C9_witness :
  getUsers (AppAdmin.removeRole "AUDITOR" Sample.dbAuditor)
  = mkUser "u-aud" [ROLES.FINANCE] "" :: Sample.seedUsers
  ∧ getRules (AppAdmin.removeRole "AUDITOR" Sample.dbAuditor) = DEFAULT_RULES
  ∧ "AUDITOR" ∉ getCustomRoles (AppAdmin.removeRole "AUDITOR" Sample.dbAuditor).
Proof.
  assert (Hcustom : "AUDITOR" ∉ BASE_ROLES).
  { apply (bool_decide_unpack _). vm_compute. exact I. }
  pose proof (C9_role_cascade "AUDITOR" Sample.dbAuditor Hcustom) as H.
  simpl in H. destruct H as (_ & _ & _ & _ & _ & _ & H & _).
  split_and!; [reflexivity | reflexivity | exact H].
Defined.

(** C8, as the script implements it. src/js/app.js raises no error on an attempt to remove
    a built-in role; the protection is in the roles list itself. For each
    of the six built-in roles the list shows a chip marked [data-base], and
    a click on such a chip returns before [removeRole] is called, whatever
    the answer to the confirmation dialog would be: users, rule set, role
    list and expenses stay as they are. When no custom role bears a
    built-in name, this covers every chip labelled with the built-in
    name. *)
Theorem C8_builtin_chips_inert (db : Store) (name : string) (confirmed : bool) :
  name ∈ BASE_ROLES →
  AppAdmin.mkChip name true ∈ AppAdmin.renderRolesList db
  ∧ AppAdmin.onRolesListClick (Some (AppAdmin.mkChip name true)) confirmed db = db
  ∧ ((∀ r, r ∈ getCustomRoles db → r ∉ BASE_ROLES) →
     ∀ c, c ∈ AppAdmin.renderRolesList db → AppAdmin.data_role c = name →
          AppAdmin.onRolesListClick (Some c) confirmed db = db).
Proof.
  intros Hbase. split_and!.
  - unfold AppAdmin.renderRolesList. apply elem_of_app. left.
    apply list_elem_of_fmap. by exists name.
  - reflexivity.
  - intros Hinv c Hc Hname. unfold AppAdmin.renderRolesList in Hc.
    apply elem_of_app in Hc as [Hc | Hc];
      apply list_elem_of_fmap in Hc as (r & -> & Hr).
    + reflexivity.
    + simpl in Hname. subst r. by apply Hinv in Hr.
Qed.

Lemma C8_witness :
  AppAdmin.mkChip ROLES.CFO true ∈ AppAdmin.renderRolesList Sample.db
  ∧ AppAdmin.onRolesListClick (Some (AppAdmin.mkChip ROLES.CFO true)) true Sample.db
    = Sample.db.
Proof.
  destruct (C8_builtin_chips_inert Sample.db ROLES.CFO true builtin_CFO) as (H1 & H2 & _).
  split; [exact H1 | exact H2].
Defined.

(** C8 as stated fails: [removeRole] accepts a built-in name, raises
    nothing and runs the whole cascade. On the seeded store, removing CFO
    takes the role away from the user holding it. *)
Lemma C8_counterexample :
  ROLES.CFO ∈ BASE_ROLES
  ∧ mkUser "u-cfo" [ROLES.FINANCE; ROLES.CFO] "" ∈ getUsers Sample.db
  ∧ mkUser "u-cfo" [ROLES.FINANCE] "" ∈ getUsers (AppAdmin.removeRole ROLES.CFO Sample.db)
  ∧ AppAdmin.removeRole ROLES.CFO Sample.db ≠ Sample.db
  ∧ ¬ Spec.BuiltinRemovalRefused (λ name db, (AppAdmin.removeRole name db, Ok tt)).
Proof.
  split_and!.
  - apply builtin_CFO.
  - do 5 apply list_elem_of_further. apply list_elem_of_here.
  - do 5 apply list_elem_of_further. apply list_elem_of_here.
  - discriminate.
  - intros H. destruct (H ROLES.CFO Sample.db builtin_CFO) as [msg Hmsg].
    discriminate Hmsg.
Qed.

(** ** The pass condition *)

(** C1. The pass condition is not enforced by src/js/app.js. Two users hold
    FINANCE, the hybrid and percentage rules are off, and one of the two
    approves at the FINANCE step of a pending expense: the eligible set of
    the step is not empty, the other holder has not approved, so the pass
    condition is false and the step must wait. The script moves the cursor
    from step 1 to step 2 all the same: [getCurrentStep] hands back the
    step record where [rulesEval] expects the role name,
    [eligibleApproverIds] finds no holder of a record, and the branch for
    an empty eligible list runs in place of the test on every eligible
    id. *)
Theorem C1_unanimity_not_enforced :
  e_status Sample.atFinance = PENDING
  ∧ steps (e_approvals Sample.atFinance) !! stepIndex (e_approvals Sample.atFinance)
    = Some (mkStep ROLES.FINANCE [mkApproval "u-fin" APPROVE "" "t2"])
  ∧ r_hybrid (getRules Sample.dbUnanimous) = false
  ∧ Spec.eligibleApprovers Sample.dbUnanimous Sample.atFinance ROLES.FINANCE
    = ["u-fin"; "u-cfo"]
  ∧ App.eligibleApproverIds Sample.dbUnanimous Sample.atFinance (RoleName ROLES.FINANCE)
    = ["u-fin"; "u-cfo"]
  ∧ ¬ approvedBy [mkApproval "u-fin" APPROVE "" "t2"] "u-cfo"
  ∧ Spec.pass (getRules Sample.dbUnanimous) ["u-fin"; "u-cfo"]
              [mkApproval "u-fin" APPROVE "" "t2"] = false
  ∧ App.getCurrentStep Sample.atFinance
    = (1, Some (StepRecord (mkStep ROLES.FINANCE [mkApproval "u-fin" APPROVE "" "t2"])))
  ∧ App.eligibleApproverIds Sample.dbUnanimous Sample.atFinance
      (StepRecord (mkStep ROLES.FINANCE [mkApproval "u-fin" APPROVE "" "t2"])) = []
  ∧ App.rulesEval "t3" Sample.dbUnanimous Sample.atFinance
    = mkExpense "x4" "u-emp" PENDING
        (mkApprovals 2 (steps (e_approvals Sample.atFinance)))
        [mkHistory "t0" PENDING "u-emp"]
  ∧ App.approveOrReject "t2" "t3" Sample.dbBeforeFinance "x4" "u-fin" "APPROVE" ""
    = (setExpenses
         [mkExpense "x4" "u-emp" PENDING
            (mkApprovals 2 (steps (e_approvals Sample.atFinance)))
            [mkHistory "t0" PENDING "u-emp"]]
         Sample.dbBeforeFinance,
       Ok PENDING)
  ∧ ¬ Spec.PassRule App.rulesEval.
Proof.
  assert (Hno : Forall (λ a, ap_decision a ≠ REJECT) [mkApproval "u-fin" APPROVE "" "t2"]).
  { by repeat constructor. }
  split_and!; try reflexivity.
  - intros (a & Ha & Hid & _).
    apply list_elem_of_singleton in Ha. subst a. discriminate Hid.
  - intros H.
    destruct (H "t3" Sample.dbUnanimous Sample.atFinance
                (mkStep ROLES.FINANCE [mkApproval "u-fin" APPROVE "" "t2"])
                eq_refl eq_refl Hno) as [Hpass _]; [discriminate|].
    discriminate Hpass. by left.
Qed.

(** ** The specific-approver override of the earlier revision *)

Lemma findUser_Some (userId : string) (l : list User) (u : User) :
  findUser userId l = Some u → u ∈ l ∧ u_id u = userId.
Proof.
  unfold findUser. destruct (list_find _ l) as [[i u']|] eqn:Hfind; [|done].
  intros [= <-]. apply list_find_Some in Hfind as (Hi & Hid & _).
  split; [by eapply list_elem_of_lookup_2 | done].
Qed.

(** A search that returns from inside the loop stops at the first hit:
    everything before it was tried without success. *)
Lemma firstSome_split {A B : Type} (f : A → option B) (l : list A) (b : B) :
  Legacy.firstSome f l = Some b →
  ∃ pre x post, l = pre ++ x :: post ∧ Forall (λ y, f y = None) pre ∧ f x = Some b.
Proof.
  induction l as [|y l IH]; simpl; [done|].
  destruct (f y) as [b'|] eqn:Hfy.
  - intros [= <-]. exists [], y, l. split_and!; [done | constructor | done].
  - intros H. destruct (IH H) as (pre & x & post & -> & Hpre & Hx).
    exists (y :: pre), x, post. split_and!; [done | by constructor | done].
Qed.

Lemma firstSome_None {A B : Type} (f : A → option B) (l : list A) :
  Legacy.firstSome f l = None ↔ Forall (λ x, f x = None) l.
Proof.
  induction l as [|x l IH]; simpl.
  - split; [constructor | done].
  - rewrite Forall_cons. destruct (f x) as [b|] eqn:Hfx.
    + split; [done | by intros [? _]].
    + rewrite IH. split; [by intros ? | by intros [_ ?]].
Qed.

Lemma firstSome_is_Some {A B : Type} (f : A → option B) (l : list A) (x : A) :
  x ∈ l → is_Some (f x) → is_Some (Legacy.firstSome f l).
Proof.
  intros Hx Hfx. induction l as [|y l IH]; [inversion Hx|]. simpl.
  destruct (f y) eqn:Hfy; [done|].
  apply elem_of_cons in Hx as [-> | Hx]; [|by apply IH].
  rewrite Hfy in Hfx. by destruct Hfx.
Qed.

Lemma overrideBy_Some (db : Store) (role : string) (a : Approval) (uid : string) :
  Legacy.overrideBy db role a = Some uid
  ↔ ∃ u, findUser (ap_userId a) (getUsers db) = Some u
       ∧ ap_decision a = APPROVE ∧ role ∈ u_roles u ∧ uid = u_id u.
Proof.
  unfold Legacy.overrideBy, isApprove, hasRole, roleList. split.
  - destruct (findUser (ap_userId a) (getUsers db)) as [u|]; [|done].
    destruct (bool_decide (ap_decision a = APPROVE)) eqn:Hd; [|done].
    destruct (bool_decide (role ∈ u_roles u)) eqn:Hr; [|done].
    intros [= <-]. exists u.
    apply bool_decide_eq_true in Hd. apply bool_decide_eq_true in Hr. done.
  - intros (u & -> & Hd & Hr & ->).
    by rewrite (bool_decide_eq_true_2 _ Hd), (bool_decide_eq_true_2 _ Hr).
Qed.

Lemma overrideBy_None (db : Store) (role : string) (a : Approval) :
  Legacy.overrideBy db role a = None ↔ ¬ approvesHolding db role a.
Proof.
  split.
  - intros Hnone (Hd & u & Hu & Hr).
    assert (Hs : Legacy.overrideBy db role a = Some (u_id u)).
    { apply overrideBy_Some. by exists u. }
    congruence.
  - intros Hno. destruct (Legacy.overrideBy db role a) as [uid|] eqn:Ho; [|done].
    apply overrideBy_Some in Ho as (u & Hu & Hd & Hr & _).
    destruct Hno. split; [done | by exists u].
Qed.

(** The scan comes back empty-handed exactly when no decision of the chain
    is an approval by a holder of the role. *)
Lemma scanOverride_None (db : Store) (role : string) (e : Expense) :
  Legacy.scanOverride db role e = None
  ↔ Forall (λ s, Forall (λ b, ¬ approvesHolding db role b) (st_approvals s))
           (steps (e_approvals e)).
Proof.
  unfold Legacy.scanOverride. rewrite firstSome_None.
  apply Forall_iff. intros s. rewrite firstSome_None.
  apply Forall_iff. intros b. apply overrideBy_None.
Qed.

(** What the scan returns is the id of the first approver holding the role,
    steps taken in order and the decisions of a step in order. *)
Lemma scanOverride_first (db : Store) (role : string) (e : Expense) (uid : string) :
  Legacy.scanOverride db role e = Some uid →
  ∃ before s' after pre a' post u',
    steps (e_approvals e) = before ++ s' :: after
    ∧ st_approvals s' = pre ++ a' :: post
    ∧ Forall (λ s0, Forall (λ b, ¬ approvesHolding db role b) (st_approvals s0)) before
    ∧ Forall (λ b, ¬ approvesHolding db role b) pre
    ∧ ap_decision a' = APPROVE
    ∧ findUser (ap_userId a') (getUsers db) = Some u'
    ∧ role ∈ u_roles u'
    ∧ u_id u' = ap_userId a'
    ∧ uid = u_id u'.
Proof.
  unfold Legacy.scanOverride. intros Hscan.
  apply firstSome_split in Hscan as (before & s' & after & Hsteps & Hbefore & Hscan).
  apply firstSome_split in Hscan as (pre & a' & post & Happs & Hpre & Hscan).
  apply overrideBy_Some in Hscan as (u' & Hu' & Hd' & Hr' & ->).
  exists before, s', after, pre, a', post, u'. split_and!; try done.
  - eapply Forall_impl; [exact Hbefore|]. intros s0 H0. simpl in H0.
    apply firstSome_None in H0.
    eapply Forall_impl; [exact H0|]. intros b Hb. simpl in Hb. by apply overrideBy_None.
  - eapply Forall_impl; [exact Hpre|]. intros b Hb. simpl in Hb. by apply overrideBy_None.
  - by apply findUser_Some in Hu' as [_ ?].
Qed.

(** The scan finds an approver whenever the chain holds one. *)
Lemma scanOverride_finds (db : Store) (role : string) (e : Expense)
    (s : Step) (a : Approval) (u : User) :
  s ∈ steps (e_approvals e) → a ∈ st_approvals s →
  ap_decision a = APPROVE →
  findUser (ap_userId a) (getUsers db) = Some u →
  role ∈ u_roles u →
  is_Some (Legacy.scanOverride db role e).
Proof.
  intros Hs Ha Hd Hu Hr.
  unfold Legacy.scanOverride. apply (firstSome_is_Some _ _ s Hs).
  apply (firstSome_is_Some _ _ a Ha).
  exists (u_id u). apply overrideBy_Some. by exists u.
Qed.

(** Without a REJECT among the decisions of a step every decision is an
    APPROVE: the two counts of the percentage rule coincide. *)
Lemma Legacy_counts_without_reject (l : list Approval) :
  length (filter (λ a, isReject a = true) l) = 0 →
  length (filter (λ a, isApprove a = true) l) = length l.
Proof.
  induction l as [|a l IH]; [done|].
  unfold isReject, isApprove in *. rewrite !filter_cons.
  destruct (ap_decision a); simpl.
  - intros H. by rewrite IH.
  - discriminate.
Qed.

(** C2, as the script implements it. Only the earlier revision
    (src/unnamed/part_000) applies the specific-approver rule. There, when
    the rule is enabled and the expense has an active step, an APPROVE
    decision anywhere in the chain by a stored user holding
    specificApproverRule.role makes evaluation set the status to APPROVED,
    set the cursor to the length of the rule set's steps (the length of the
    expense's own chain whenever the chain carries the roles of the rule
    set) and append one history entry attributed to the first such
    approver in scan order: no decision of an earlier step, and no earlier
    decision of the same step, is an approval by a holder of the role. The
    steps themselves are untouched, whatever decisions they hold. In
    src/js/app.js evaluation does not depend on the rule set, and on a step
    that is not the last and holds no REJECT it leaves the status as it
    is. *)
Theorem C2_specific_approver (now : string) (db : Store) (e : Expense)
    (step s : Step) (a : Approval) (u : User) :
  sa_enabled (r_specificApproverRule (getRules db)) = true →
  Legacy.approverEntry db e = Some step →
  s ∈ steps (e_approvals e) → a ∈ st_approvals s →
  ap_decision a = APPROVE →
  findUser (ap_userId a) (getUsers db) = Some u →
  sa_role (r_specificApproverRule (getRules db)) ∈ u_roles u →
  (∃ before s' after pre a' post u',
     steps (e_approvals e) = before ++ s' :: after
     ∧ st_approvals s' = pre ++ a' :: post
     ∧ Forall (λ s0, Forall (λ b,
          ¬ approvesHolding db (sa_role (r_specificApproverRule (getRules db))) b)
          (st_approvals s0)) before
     ∧ Forall (λ b,
          ¬ approvesHolding db (sa_role (r_specificApproverRule (getRules db))) b) pre
     ∧ ap_decision a' = APPROVE
     ∧ findUser (ap_userId a') (getUsers db) = Some u'
     ∧ sa_role (r_specificApproverRule (getRules db)) ∈ u_roles u'
     ∧ u_id u' = ap_userId a'
     ∧ Legacy.rulesEval now db e =
         mkExpense (e_id e) (e_userId e) APPROVED
           (mkApprovals (length (r_steps (getRules db))) (steps (e_approvals e)))
           (e_history e ++ [mkHistory now APPROVED (u_id u')]))
  ∧ (roleSequence e = r_steps (getRules db) →
     stepIndex (e_approvals (Legacy.rulesEval now db e)) = length (steps (e_approvals e)))
  ∧ (∀ r, App.rulesEval now (setRules r db) e = App.rulesEval now db e)
  ∧ (∀ step',
       steps (e_approvals e) !! stepIndex (e_approvals e) = Some step' →
       Forall (λ a, ap_decision a ≠ REJECT) (st_approvals step') →
       S (stepIndex (e_approvals e)) < length (steps (e_approvals e)) →
       e_status (App.rulesEval now db e) = e_status e).
Proof.
  intros Hen Hentry Hs Ha Hd Hu Hr.
  destruct (scanOverride_finds db _ e s a u Hs Ha Hd Hu Hr) as [uid Hscan].
  assert (Heval : Legacy.rulesEval now db e =
            mkExpense (e_id e) (e_userId e) APPROVED
              (mkApprovals (length (r_steps (getRules db))) (steps (e_approvals e)))
              (e_history e ++ [mkHistory now APPROVED uid])).
  { unfold Legacy.rulesEval. by rewrite Hentry, Hen, Hscan. }
  split_and!.
  - apply scanOverride_first in Hscan
      as (before & s' & after & pre & a' & post & u'
          & Hsteps & Happs & Hbefore & Hpre & Hd' & Hu' & Hr' & Hid & ->).
    exists before, s', after, pre, a', post, u'. by split_and!.
  - intros Hroles. rewrite Heval. simpl.
    rewrite <- Hroles. unfold roleSequence. by rewrite length_fmap.
  - done.
  - intros step' Hstep' Hnorej Hnext.
    rewrite (App_rulesEval_active _ _ _ _ Hstep').
    rewrite (proj2 (existsb_isReject_false _) Hnorej).
    unfold App.advance. by rewrite bool_decide_eq_false_2 by lia.
Qed.

Lemma C2_witness :
  ∃ u', Legacy.rulesEval "t3" Sample.dbCfoAtFinance Sample.cfoAtFinance =
          mkExpense "x8" "u-emp" APPROVED
            (mkApprovals 3 (steps (e_approvals Sample.cfoAtFinance)))
            ([mkHistory "t0" PENDING "u-emp"] ++ [mkHistory "t3" APPROVED (u_id u')])
        ∧ u_id u' = "u-cfo".
Proof.
  destruct (C2_specific_approver "t3" Sample.dbCfoAtFinance Sample.cfoAtFinance
              (mkStep ROLES.FINANCE [mkApproval "u-cfo" APPROVE "" "t2"])
              (mkStep ROLES.FINANCE [mkApproval "u-cfo" APPROVE "" "t2"])
              (mkApproval "u-cfo" APPROVE "" "t2")
              (mkUser "u-cfo" [ROLES.FINANCE; ROLES.CFO] ""))
    as [(before & s' & after & pre & a' & post & u' & _ & _ & _ & _ & _ & _ & _ & _ & H) _].
  - reflexivity.
  - reflexivity.
  - apply list_elem_of_further, list_elem_of_here.
  - apply list_elem_of_here.
  - reflexivity.
  - reflexivity.
  - apply list_elem_of_further, list_elem_of_here.
  - exists u'. split; [exact H|].
    assert (Hc : Legacy.rulesEval "t3" Sample.dbCfoAtFinance Sample.cfoAtFinance =
              mkExpense "x8" "u-emp" APPROVED
                (mkApprovals 3 (steps (e_approvals Sample.cfoAtFinance)))
                [mkHistory "t0" PENDING "u-emp"; mkHistory "t3" APPROVED "u-cfo"])
      by reflexivity.
    rewrite Hc in H. simpl in H. by injection H.
Defined.

(** C2 as stated fails in src/js/app.js. The CFO has approved at the first
    step of a three-step expense while the rule is enabled: evaluation
    leaves the expense PENDING and moves on to step 1, where the claim has
    it APPROVED with the cursor past the chain. *)
Lemma C2_counterexample :
  sa_enabled (r_specificApproverRule (getRules Sample.dbTwoSteps)) = true
  ∧ e_status Sample.cfoAtManager = PENDING
  ∧ steps (e_approvals Sample.cfoAtManager) !! 0
    = Some (mkStep ROLES.MANAGER [mkApproval "u-cfo" APPROVE "" "t1"])
  ∧ findUser "u-cfo" (getUsers Sample.dbTwoSteps)
    = Some (mkUser "u-cfo" [ROLES.FINANCE; ROLES.CFO] "")
  ∧ e_status (App.rulesEval "t2" Sample.dbTwoSteps Sample.cfoAtManager) = PENDING
  ∧ stepIndex (e_approvals (App.rulesEval "t2" Sample.dbTwoSteps Sample.cfoAtManager)) = 1
  ∧ length (steps (e_approvals (App.rulesEval "t2" Sample.dbTwoSteps Sample.cfoAtManager))) = 3
  ∧ ¬ Spec.SpecificApproverRuleHolds App.rulesEval.
Proof.
  assert (Hin : ROLES.CFO ∈ [ROLES.FINANCE; ROLES.CFO]).
  { apply list_elem_of_further, list_elem_of_here. }
  split_and!; try reflexivity.
  intros H.
  destruct (H "t2" Sample.dbTwoSteps Sample.cfoAtManager
              (mkStep ROLES.MANAGER [mkApproval "u-cfo" APPROVE "" "t1"])
              (mkStep ROLES.MANAGER [mkApproval "u-cfo" APPROVE "" "t1"])
              (mkApproval "u-cfo" APPROVE "" "t1")
              (mkUser "u-cfo" [ROLES.FINANCE; ROLES.CFO] "")
              eq_refl eq_refl eq_refl (list_elem_of_here _ _) (list_elem_of_here _ _)
              eq_refl eq_refl Hin) as [Hst _].
  discriminate Hst.
Qed.

(** ** Who may act on the current step in src/js/app.js *)

(** With the eligible list empty for the step record, the approver test
    behind the Approve and Reject buttons comes down to the ADMIN role. *)
Lemma App_isUserApproverFor_active (db : Store) (e : Expense) (user : User) (step : Step) :
  steps (e_approvals e) !! stepIndex (e_approvals e) = Some step →
  App.isUserApproverFor db e user = hasRole user (RoleName ROLES.ADMIN).
Proof.
  intros Hstep. unfold App.isUserApproverFor, App.getCurrentStep. simpl.
  rewrite Hstep. simpl. by rewrite App_eligible_of_step_record.
Qed.

Lemma App_isUserApproverFor_finished (db : Store) (e : Expense) (user : User) :
  steps (e_approvals e) !! stepIndex (e_approvals e) = None →
  App.isUserApproverFor db e user = false.
Proof.
  intros Hstep. unfold App.isUserApproverFor, App.getCurrentStep. simpl.
  by rewrite Hstep.
Qed.

(** ** Where the earlier revision differs *)

(** Its current role is read from the rule set in force, not from the
    expense. *)
Example Legacy_current_role_follows_rule_set :
  Legacy.getCurrentStep Sample.db Sample.lunch = (0, Some ROLES.MANAGER)
  ∧ Legacy.getCurrentStep
      (setRules (mkRules [ROLES.DIRECTOR] (mkPercentageRule true 50)
                         (mkSpecificApproverRule true ROLES.CFO) true) Sample.db)
      Sample.lunch = (0, Some ROLES.DIRECTOR)
  ∧ App.getCurrentStep Sample.lunch = (0, Some (StepRecord (mkStep ROLES.MANAGER []))).
Proof. split_and!; reflexivity. Qed.

(** It has no auto-skip: a step without decisions stays where it is unless
    the override fires. *)
Lemma Legacy_rulesEval_no_decisions (now : string) (db : Store) (e : Expense) (step : Step) :
  Legacy.approverEntry db e = Some step →
  st_approvals step = [] →
  Legacy.scanOverride db (sa_role (r_specificApproverRule (getRules db))) e = None →
  Legacy.rulesEval now db e = e.
Proof.
  intros Hentry Hnil Hscan. unfold Legacy.rulesEval.
  rewrite Hentry, Hscan, Hnil. simpl.
  destruct (sa_enabled _); by rewrite andb_false_r.
Qed.

Example Legacy_no_auto_skip :
  App.eligibleApproverIds Sample.db Sample.ownExpense (RoleName ROLES.MANAGER) = []
  ∧ Legacy.rulesEval "t1" Sample.db Sample.ownExpense = Sample.ownExpense.
Proof. split; reflexivity. Qed.

Lemma Legacy_approverEntry_Some (db : Store) (e : Expense) (s : Step) :
  Legacy.approverEntry db e = Some s →
  steps (e_approvals e) !! stepIndex (e_approvals e) = Some s.
Proof.
  unfold Legacy.approverEntry, Legacy.getCurrentStep.
  destruct (r_steps (getRules db) !! stepIndex (e_approvals e)) as [r|]; [|done].
  by case_bool_decide.
Qed.

(** ** Steps nobody is eligible for *)

(** C4, as the script implements it. In src/js/app.js, when the current
    step of a pending expense holds no REJECT and the eligible approver
    list of the step's role is empty, evaluation passes the step whatever
    decisions it holds (none is needed): if a further step exists the
    cursor moves to it and the expense stays PENDING; if the step was the
    last one the expense is concluded APPROVED with one history entry,
    attributed to the author of the step's last decision if it has one,
    and its approvals block is returned as it was. The earlier revision
    (src/unnamed/part_000) has no auto-skip: an expense whose current step
    holds no decision is returned as it is, unless the specific-approver
    rule is enabled and some decision of the chain is an approval by a
    holder of its role. *)
Theorem C4_auto_skip (now : string) (db : Store) (e : Expense) (step : Step) :
  e_status e = PENDING →
  steps (e_approvals e) !! stepIndex (e_approvals e) = Some step →
  Forall (λ a, ap_decision a ≠ REJECT) (st_approvals step) →
  App.eligibleApproverIds db e (RoleName (st_role step)) = [] →
  let next := S (stepIndex (e_approvals e)) in
  (next < length (steps (e_approvals e)) →
     App.rulesEval now db e =
       mkExpense (e_id e) (e_userId e) PENDING
                 (mkApprovals next (steps (e_approvals e))) (e_history e))
  ∧ (length (steps (e_approvals e)) ≤ next →
     App.rulesEval now db e =
       mkExpense (e_id e) (e_userId e) APPROVED (e_approvals e)
                 (e_history e ++ [mkHistory now APPROVED (lastUserId (st_approvals step))]))
  ∧ (st_approvals step = [] →
     (sa_enabled (r_specificApproverRule (getRules db)) = true →
      Forall (λ s0, Forall (λ b,
          ¬ approvesHolding db (sa_role (r_specificApproverRule (getRules db))) b)
          (st_approvals s0)) (steps (e_approvals e))) →
     Legacy.rulesEval now db e = e).
Proof.
  intros Hpend Hstep Hnorej _ next. split_and!.
  - intros Hnext. rewrite (App_rulesEval_active _ _ _ _ Hstep).
    rewrite (proj2 (existsb_isReject_false _) Hnorej).
    unfold App.advance. rewrite Nat.add_1_r. fold next.
    rewrite bool_decide_eq_false_2 by lia. unfold setStepIndex. by rewrite Hpend.
  - intros Hnext. rewrite (App_rulesEval_active _ _ _ _ Hstep).
    rewrite (proj2 (existsb_isReject_false _) Hnorej).
    unfold App.advance. rewrite Nat.add_1_r. fold next.
    by rewrite bool_decide_eq_true_2 by lia.
  - intros Hnil Hnone. unfold Legacy.rulesEval.
    destruct (Legacy.approverEntry db e) as [step'|] eqn:Hentry; [|done].
    apply Legacy_approverEntry_Some in Hentry.
    assert (step' = step) as -> by congruence.
    assert (Hov : (if sa_enabled (r_specificApproverRule (getRules db))
                   then Legacy.scanOverride db
                          (sa_role (r_specificApproverRule (getRules db))) e
                   else None) = None).
    { destruct (sa_enabled _); [|done]. apply scanOverride_None. by apply Hnone. }
    rewrite Hov, Hnil. simpl. by rewrite andb_false_r.
Qed.

Lemma C4_witness :
  (App.eligibleApproverIds Sample.db Sample.ownExpense (RoleName ROLES.MANAGER) = []
   ∧ App.rulesEval "t1" Sample.db Sample.ownExpense =
       mkExpense "x7" "u-manager" PENDING
                 (mkApprovals 1 [mkStep ROLES.MANAGER []; mkStep ROLES.FINANCE []])
                 [mkHistory "t0" PENDING "u-manager"])
  ∧ App.rulesEval "t1" Sample.dbSingleStep Sample.ownSingle =
      mkExpense "x9" "u-manager" APPROVED (e_approvals Sample.ownSingle)
                ([mkHistory "t0" PENDING "u-manager"] ++ [mkHistory "t1" APPROVED ""])
  ∧ Legacy.rulesEval "t1" Sample.db Sample.ownDefault = Sample.ownDefault.
Proof.
  split; [split; [reflexivity|] | split].
  - destruct (C4_auto_skip "t1" Sample.db Sample.ownExpense (mkStep ROLES.MANAGER []))
      as (H & _ & _).
    + reflexivity.
    + reflexivity.
    + constructor.
    + reflexivity.
    + apply H. simpl. lia.
  - destruct (C4_auto_skip "t1" Sample.dbSingleStep Sample.ownSingle (mkStep ROLES.MANAGER []))
      as (_ & H & _).
    + reflexivity.
    + reflexivity.
    + constructor.
    + reflexivity.
    + apply H. simpl. lia.
  - destruct (C4_auto_skip "t1" Sample.db Sample.ownDefault (mkStep ROLES.MANAGER []))
      as (_ & _ & H).
    + reflexivity.
    + reflexivity.
    + constructor.
    + reflexivity.
    + apply H; [reflexivity|]. intros _. repeat constructor.
Defined.

(** C4 as stated fails. In src/js/app.js, on the last step of a chain:
    the manager, who has no manager, has submitted an expense under a rule
    set whose only step is MANAGER; evaluation (with no decision, or right
    after one recorded by the administrator) concludes the expense
    APPROVED and the cursor is 0 as before, where the claim has it
    advanced to 1. In the earlier revision, on any step: the same
    submitter's expense under the default rule set is returned unchanged,
    where the claim has the cursor advanced. *)
Lemma C4_counterexample :
  e_status Sample.ownSingle = PENDING
  ∧ steps (e_approvals Sample.ownSingle) !! stepIndex (e_approvals Sample.ownSingle)
    = Some (mkStep ROLES.MANAGER [])
  ∧ Spec.eligibleApprovers Sample.dbSingleStep Sample.ownSingle ROLES.MANAGER = []
  ∧ e_status (App.rulesEval "t1" Sample.dbSingleStep Sample.ownSingle) = APPROVED
  ∧ stepIndex (e_approvals (App.rulesEval "t1" Sample.dbSingleStep Sample.ownSingle)) = 0
  ∧ (∃ db' e',
       App.approveOrReject "t1" "t2" Sample.dbSingleStep "x9" "u-admin" "APPROVE" ""
       = (db', Ok APPROVED)
       ∧ getExpenses db' = [e']
       ∧ stepIndex (e_approvals e') = 0
       ∧ length (steps (e_approvals e')) = 1)
  ∧ ¬ Spec.AutoSkipRule App.rulesEval
  ∧ e_status Sample.ownDefault = PENDING
  ∧ Spec.eligibleApprovers Sample.db Sample.ownDefault ROLES.MANAGER = []
  ∧ Legacy.rulesEval "t1" Sample.db Sample.ownDefault = Sample.ownDefault
  ∧ ¬ Spec.AutoSkipRule Legacy.rulesEval.
Proof.
  split_and!; try reflexivity.
  - eexists _, _. split_and!; reflexivity.
  - intros H.
    destruct (H "t1" Sample.dbSingleStep Sample.ownSingle (mkStep ROLES.MANAGER [])
                eq_refl eq_refl (Forall_nil_2 _) eq_refl) as [Hidx _].
    discriminate Hidx.
  - intros H.
    destruct (H "t1" Sample.db Sample.ownDefault (mkStep ROLES.MANAGER [])
                eq_refl eq_refl (Forall_nil_2 _) eq_refl) as [Hidx _].
    discriminate Hidx.
Qed.

(** Its override concludes relative to the rule set in force. *)
Example Legacy_adminOverride_cursor :
  ∃ db', Legacy.adminOverride "t9" Sample.dbTwoSteps "x5" REJECTED "u-admin" = (db', Ok tt)
    ∧ (λ e, stepIndex (e_approvals e)) <$> getExpenses db' = [2]
    ∧ (λ e, length (steps (e_approvals e))) <$> getExpenses db' = [3].
Proof. eexists. split_and!; reflexivity. Qed.

(** Its specific-approver scan runs before the rejection test. *)
Example Legacy_override_before_reject :
  e_status
    (Legacy.rulesEval "t3" Sample.db
       (pushApproval 0 (mkApproval "u-manager" REJECT "no" "t2") Sample.cfoAtManager))
  = APPROVED
  ∧ e_status
      (App.rulesEval "t3" Sample.db
         (pushApproval 0 (mkApproval "u-manager" REJECT "no" "t2") Sample.cfoAtManager))
    = REJECTED.
Proof. split; reflexivity. Qed.

(** ** Runs of the seeded store through src/js/app.js *)

(** The employee's manager rejects at the first step: the expense is
    rejected at once and the later steps hold no decision. *)
Example App_manager_rejects :
  ∃ db' e',
    App.approveOrReject "t1" "t2" Sample.db "x1" "u-manager" "REJECT" "no" = (db', Ok REJECTED)
    ∧ getExpenses db' !! 0 = Some e'
    ∧ e_status e' = REJECTED
    ∧ stepIndex (e_approvals e') = 0
    ∧ st_approvals <$> steps (e_approvals e')
      = [[mkApproval "u-manager" REJECT "no" "t1"]; []; []]
    ∧ e_history e' = [mkHistory "t0" PENDING "u-emp"; mkHistory "t2" REJECTED "u-manager"].
Proof. eexists _, _. split_and!; reflexivity. Qed.

(** Three approvals in a row: the cursor goes 0, 1, 2 and the third
    approval concludes the expense, the cursor staying on the last step. *)
Example App_three_approvals :
  ∃ db1 db2 db3 e',
    App.approveOrReject "t1" "t1" Sample.db "x1" "u-manager" "APPROVE" "" = (db1, Ok PENDING)
    ∧ App.approveOrReject "t2" "t2" db1 "x1" "u-fin" "APPROVE" "" = (db2, Ok PENDING)
    ∧ App.approveOrReject "t3" "t3" db2 "x1" "u-dir" "APPROVE" "" = (db3, Ok APPROVED)
    ∧ (λ e, stepIndex (e_approvals e)) <$> getExpenses db1 !! 0 = Some 1
    ∧ (λ e, stepIndex (e_approvals e)) <$> getExpenses db2 !! 0 = Some 2
    ∧ getExpenses db3 !! 0 = Some e'
    ∧ stepIndex (e_approvals e') = 2
    ∧ e_status e' = APPROVED
    ∧ e_history e' = [mkHistory "t0" PENDING "u-emp"; mkHistory "t3" APPROVED "u-dir"].
Proof. eexists _, _, _, _. split_and!; reflexivity. Qed.

(** * Further properties of src/js/app.js *)

(** ** Which expenses a user is shown *)

Lemma hasRole_name (u : User) (r : string) :
  hasRole u (RoleName r) = true ↔ r ∈ u_roles u.
Proof. unfold hasRole, roleList. apply bool_decide_eq_true. Qed.

Lemma hasRole_name_false (u : User) (r : string) :
  hasRole u (RoleName r) = false ↔ r ∉ u_roles u.
Proof. unfold hasRole, roleList. apply bool_decide_eq_false. Qed.

(** X1. Whatever roles a user holds, the list of expenses shown to that
    user is a selection from the stored expenses, in their stored order,
    and it contains every stored expense the user submitted. *)
Theorem X1_listExpensesFor_own (db : Store) (user : User) :
  AppViews.listExpensesFor db user `sublist_of` getExpenses db
  ∧ ∀ e, e ∈ getExpenses db → e_userId e = u_id user →
         e ∈ AppViews.listExpensesFor db user.
Proof.
  unfold AppViews.listExpensesFor. split.
  - repeat case_match; first [done | apply sublist_filter].
  - intros e He Hown.
    repeat case_match; first [done | apply list_elem_of_filter; tauto].
Qed.

(** X2. A holder of ADMIN or of CFO is shown every stored expense; a user
    holding none of ADMIN, CFO, MANAGER, FINANCE and DIRECTOR is shown
    exactly the stored expenses that user submitted. *)
Theorem X2_listExpensesFor_all_or_own (db : Store) (user : User) :
  (ROLES.ADMIN ∈ u_roles user ∨ ROLES.CFO ∈ u_roles user →
     AppViews.listExpensesFor db user = getExpenses db)
  ∧ (ROLES.ADMIN ∉ u_roles user → ROLES.CFO ∉ u_roles user →
     ROLES.MANAGER ∉ u_roles user → ROLES.FINANCE ∉ u_roles user →
     ROLES.DIRECTOR ∉ u_roles user →
     AppViews.listExpensesFor db user
     = filter (λ e, e_userId e = u_id user) (getExpenses db)).
Proof.
  unfold AppViews.listExpensesFor. split.
  - intros [H | H]; apply hasRole_name in H; rewrite H; [done|].
    by rewrite orb_true_r.
  - intros Ha Hc Hm Hf Hd.
    apply hasRole_name_false in Ha, Hc, Hm, Hf, Hd.
    by rewrite Ha, Hc, Hm, Hf, Hd.
Qed.

Lemma X2_witness :
  AppViews.listExpensesFor Sample.db (mkUser "u-cfo" [ROLES.FINANCE; ROLES.CFO] "")
  = getExpenses Sample.db
  ∧ AppViews.listExpensesFor Sample.db (mkUser "u-emp" [ROLES.EMPLOYEE] "u-manager")
    = filter (λ e, e_userId e = "u-emp") (getExpenses Sample.db).
Proof.
  split.
  - apply (proj1 (X2_listExpensesFor_all_or_own Sample.db
                    (mkUser "u-cfo" [ROLES.FINANCE; ROLES.CFO] ""))).
    right. apply list_elem_of_further, list_elem_of_here.
  - apply (proj2 (X2_listExpensesFor_all_or_own Sample.db
                    (mkUser "u-emp" [ROLES.EMPLOYEE] "u-manager")));
      apply (bool_decide_unpack _); vm_compute; exact I.
Defined.

(** X3. A manager with a non-empty id who holds neither ADMIN nor CFO is
    shown a stored expense exactly when it is the manager's own or its
    submitter's id is that of a stored user whose manager reference is the
    manager. A holder of FINANCE or DIRECTOR without ADMIN, CFO and MANAGER
    is shown exactly the pending expenses and the own ones. *)
Theorem X3_listExpensesFor_team (db : Store) (user : User) (e : Expense) :
  ROLES.ADMIN ∉ u_roles user → ROLES.CFO ∉ u_roles user →
  (u_id user ≠ "" → ROLES.MANAGER ∈ u_roles user →
     e ∈ AppViews.listExpensesFor db user
     ↔ e ∈ getExpenses db
       ∧ (e_userId e = u_id user
          ∨ ∃ u, u ∈ getUsers db ∧ u_id u = e_userId e ∧ u_managerId u = u_id user))
  ∧ (ROLES.MANAGER ∉ u_roles user →
     ROLES.FINANCE ∈ u_roles user ∨ ROLES.DIRECTOR ∈ u_roles user →
     e ∈ AppViews.listExpensesFor db user
     ↔ e ∈ getExpenses db ∧ (e_status e = PENDING ∨ e_userId e = u_id user)).
Proof.
  intros Ha Hc. apply hasRole_name_false in Ha, Hc.
  unfold AppViews.listExpensesFor. rewrite Ha, Hc. cbn [orb]. split.
  - intros _ Hm. apply hasRole_name in Hm. rewrite Hm.
    rewrite list_elem_of_filter, list_elem_of_fmap. split.
    + intros [[(u & Hid & Hu) | Hown] He]; (split; [done|]); [right | by left].
      apply list_elem_of_filter in Hu as [Hmgr Hu]. by exists u.
    + intros [He [Hown | (u & Hu & Hid & Hmgr)]]; (split; [|done]); [by right | left].
      exists u. split; [done|]. by apply list_elem_of_filter.
  - intros Hm Hfd. apply hasRole_name_false in Hm. rewrite Hm.
    assert (Hor : hasRole user (RoleName ROLES.FINANCE)
                  || hasRole user (RoleName ROLES.DIRECTOR) = true).
    { apply orb_true_iff. destruct Hfd as [H | H]; apply hasRole_name in H; tauto. }
    rewrite Hor, list_elem_of_filter. tauto.
Qed.

Lemma X3_witness :
  Sample.lunch ∈ AppViews.listExpensesFor Sample.db (mkUser "u-manager" [ROLES.MANAGER] "")
  ↔ Sample.lunch ∈ getExpenses Sample.db
    ∧ (e_userId Sample.lunch = "u-manager"
       ∨ ∃ u, u ∈ getUsers Sample.db ∧ u_id u = e_userId Sample.lunch
              ∧ u_managerId u = "u-manager").
Proof.
  apply (X3_listExpensesFor_team Sample.db (mkUser "u-manager" [ROLES.MANAGER] "")
           Sample.lunch).
  - apply (bool_decide_unpack _). vm_compute. exact I.
  - apply (bool_decide_unpack _). vm_compute. exact I.
  - discriminate.
  - apply list_elem_of_here.
Defined.

(** ** Who is eligible *)

(** X4. Handed a role name other than MANAGER, eligibleApproverIds
    returns exactly the ids of the stored users holding that role; handed
    MANAGER it returns the manager reference of the first stored user with
    the submitter's id, when that reference is set, and nothing otherwise
    (so at most one id, and none when the submitter is not stored); handed
    the empty name it returns nothing. *)
Theorem X4_eligibleApproverIds (db : Store) (e : Expense) (role id : string) :
  (role ≠ "" → role ≠ ROLES.MANAGER →
     id ∈ App.eligibleApproverIds db e (RoleName role)
     ↔ ∃ u, u ∈ getUsers db ∧ u_id u = id ∧ role ∈ u_roles u)
  ∧ (id ∈ App.eligibleApproverIds db e (RoleName ROLES.MANAGER)
     ↔ id ≠ "" ∧ ∃ emp, findUser (e_userId e) (getUsers db) = Some emp
                        ∧ u_managerId emp = id)
  ∧ length (App.eligibleApproverIds db e (RoleName ROLES.MANAGER)) ≤ 1
  ∧ App.eligibleApproverIds db e (RoleName "") = [].
Proof.
  split_and!.
  - intros Hne Hnm. unfold App.eligibleApproverIds. simpl.
    rewrite (bool_decide_eq_false_2 _ Hne), (bool_decide_eq_false_2 _ Hnm). simpl.
    rewrite list_elem_of_fmap. split.
    + intros (u & -> & Hu). apply list_elem_of_filter in Hu as [Hr Hu].
      exists u. by apply hasRole_name in Hr.
    + intros (u & Hu & <- & Hr). exists u. split; [done|].
      apply list_elem_of_filter. split; [by apply hasRole_name | done].
  - unfold App.eligibleApproverIds. simpl.
    destruct (findUser (e_userId e) (getUsers db)) as [emp|].
    + case_bool_decide as Hm.
      * split; [intros H; inversion H|]. intros (Hid & emp' & [= <-] & Heq). congruence.
      * rewrite list_elem_of_singleton. split.
        -- intros ->. eauto.
        -- by intros (_ & emp' & [= <-] & <-).
    + split; [intros H; inversion H|]. by intros (_ & emp' & ? & _).
  - unfold App.eligibleApproverIds. simpl.
    destruct (findUser (e_userId e) (getUsers db)) as [emp|]; [|simpl; lia].
    case_bool_decide; simpl; lia.
  - reflexivity.
Qed.

Lemma X4_witness :
  "u-cfo" ∈ App.eligibleApproverIds Sample.db Sample.lunch (RoleName ROLES.FINANCE)
  ↔ ∃ u, u ∈ getUsers Sample.db ∧ u_id u = "u-cfo" ∧ ROLES.FINANCE ∈ u_roles u.
Proof.
  apply (proj1 (X4_eligibleApproverIds Sample.db Sample.lunch ROLES.FINANCE "u-cfo"));
    discriminate.
Defined.

(** ** What one evaluation does in src/js/app.js *)

(** X5. In src/js/app.js evaluation leaves an expense alone when its
    cursor points at no step, and otherwise never leaves it waiting: a
    current step without REJECT is passed whoever decided and whoever holds
    the step's role (the cursor moves on, or, on the last step, the status
    becomes APPROVED with one history entry), because the eligible list is
    computed for the step record and is empty. *)
Theorem X5_rulesEval_never_waits (now : string) (db : Store) (e : Expense) :
  (steps (e_approvals e) !! stepIndex (e_approvals e) = None →
     App.rulesEval now db e = e)
  ∧ (∀ step,
       steps (e_approvals e) !! stepIndex (e_approvals e) = Some step →
       Forall (λ a, ap_decision a ≠ REJECT) (st_approvals step) →
       App.eligibleApproverIds db e (StepRecord step) = []
       ∧ (S (stepIndex (e_approvals e)) < length (steps (e_approvals e)) →
          App.rulesEval now db e =
            mkExpense (e_id e) (e_userId e) (e_status e)
              (mkApprovals (S (stepIndex (e_approvals e))) (steps (e_approvals e)))
              (e_history e))
       ∧ (length (steps (e_approvals e)) ≤ S (stepIndex (e_approvals e)) →
          App.rulesEval now db e =
            mkExpense (e_id e) (e_userId e) APPROVED (e_approvals e)
              (e_history e
               ++ [mkHistory now APPROVED (lastUserId (st_approvals step))]))).
Proof.
  split.
  - apply App_rulesEval_finished.
  - intros step Hstep Hnorej.
    rewrite (App_rulesEval_active _ _ _ _ Hstep).
    rewrite (proj2 (existsb_isReject_false _) Hnorej).
    unfold App.advance. rewrite Nat.add_1_r.
    split_and!.
    + apply App_eligible_of_step_record.
    + intros Hnext. by rewrite bool_decide_eq_false_2 by lia.
    + intros Hnext. by rewrite bool_decide_eq_true_2 by lia.
Qed.

Lemma X5_witness :
  App.eligibleApproverIds Sample.dbUnanimous Sample.atFinance
    (StepRecord (mkStep ROLES.FINANCE [mkApproval "u-fin" APPROVE "" "t2"])) = []
  ∧ App.rulesEval "t3" Sample.dbUnanimous Sample.atFinance =
      mkExpense "x4" "u-emp" PENDING
        (mkApprovals 2 (steps (e_approvals Sample.atFinance)))
        [mkHistory "t0" PENDING "u-emp"].
Proof.
  destruct (proj2 (X5_rulesEval_never_waits "t3" Sample.dbUnanimous Sample.atFinance)
              (mkStep ROLES.FINANCE [mkApproval "u-fin" APPROVE "" "t2"]))
    as (H1 & H2 & _).
  - reflexivity.
  - repeat constructor. discriminate.
  - split; [exact H1|]. apply H2. simpl. lia.
Defined.

(** X6. In src/js/app.js the approver test that decides whether the
    Approve and Reject buttons are shown holds, for an expense with a
    current step, exactly for the holders of ADMIN, whatever the step's
    role and whoever the submitter's manager is; it fails for everyone
    once the cursor is past the chain. *)
Theorem X6_isUserApproverFor_admin_only (db : Store) (e : Expense) (user : User) :
  (∀ step, steps (e_approvals e) !! stepIndex (e_approvals e) = Some step →
     (App.isUserApproverFor db e user = true ↔ ROLES.ADMIN ∈ u_roles user))
  ∧ (length (steps (e_approvals e)) ≤ stepIndex (e_approvals e) →
     App.isUserApproverFor db e user = false).
Proof.
  split.
  - intros step Hstep.
    rewrite (App_isUserApproverFor_active _ _ _ _ Hstep). apply hasRole_name.
  - intros Hlen. apply App_isUserApproverFor_finished. by apply lookup_ge_None.
Qed.

Lemma X6_witness :
  App.isUserApproverFor Sample.db Sample.lunch (mkUser "u-manager" [ROLES.MANAGER] "") = false
  ∧ App.isUserApproverFor Sample.db Sample.lunch (mkUser "u-admin" [ROLES.ADMIN] "") = true
  ∧ App.isUserApproverFor Sample.db Sample.flight (mkUser "u-admin" [ROLES.ADMIN] "") = false.
Proof.
  split_and!.
  - destruct (proj1 (X6_isUserApproverFor_admin_only Sample.db Sample.lunch
                       (mkUser "u-manager" [ROLES.MANAGER] ""))
                (mkStep ROLES.MANAGER []) eq_refl) as [H _].
    destruct (App.isUserApproverFor Sample.db Sample.lunch
                (mkUser "u-manager" [ROLES.MANAGER] "")); [|done].
    specialize (H eq_refl). apply list_elem_of_singleton in H. discriminate H.
  - apply (proj1 (X6_isUserApproverFor_admin_only Sample.db Sample.lunch
                    (mkUser "u-admin" [ROLES.ADMIN] "")) (mkStep ROLES.MANAGER []) eq_refl).
    apply list_elem_of_here.
  - apply (proj2 (X6_isUserApproverFor_admin_only Sample.db Sample.flight
                    (mkUser "u-admin" [ROLES.ADMIN] ""))).
    simpl. lia.
Defined.

Lemma X1_witness :
  AppViews.listExpensesFor Sample.db (mkUser "u-fin" [ROLES.FINANCE] "")
    `sublist_of` getExpenses Sample.db
  ∧ ∀ e, e ∈ getExpenses Sample.db → e_userId e = "u-fin" →
         e ∈ AppViews.listExpensesFor Sample.db (mkUser "u-fin" [ROLES.FINANCE] "").
Proof. exact (X1_listExpensesFor_own Sample.db (mkUser "u-fin" [ROLES.FINANCE] "")). Defined.

(** ** Recording a decision: failures, effect, and what an override does to it *)

(** X7. approveOrReject of src/js/app.js fails in exactly three ways, each
    leaving the store as it was: "Expense not found" when no stored
    expense has the id, "Expense is not pending" when the first expense
    with the id has another status than PENDING, "No active approval step"
    when it is pending but its cursor is not below the length of its
    chain. In the remaining case it succeeds. *)
Theorem X7_approveOrReject_failures (nowPush nowEval : string) (db : Store)
    (expenseId userId decision comment : string) :
  let r := App.approveOrReject nowPush nowEval db expenseId userId decision comment in
  (findExpense expenseId (getExpenses db) = None → r = (db, Throw NotFound))
  ∧ (∀ i e, findExpense expenseId (getExpenses db) = Some (i, e) →
       e_status e ≠ PENDING → r = (db, Throw NotPending))
  ∧ (∀ i e, findExpense expenseId (getExpenses db) = Some (i, e) →
       e_status e = PENDING →
       length (steps (e_approvals e)) ≤ stepIndex (e_approvals e) →
       r = (db, Throw NoActiveStep))
  ∧ (∀ i e, findExpense expenseId (getExpenses db) = Some (i, e) →
       e_status e = PENDING →
       stepIndex (e_approvals e) < length (steps (e_approvals e)) →
       ∃ db' status, r = (db', Ok status))
  ∧ (∀ db' msg, r = (db', Throw msg) →
       db' = db ∧ (msg = NotFound ∨ msg = NotPending ∨ msg = NoActiveStep)).
Proof.
  intros r. subst r. unfold App.approveOrReject. split_and!.
  - by intros ->.
  - intros i e -> Hst. by rewrite (bool_decide_eq_false_2 _ Hst).
  - intros i e -> Hst Hlen. rewrite (bool_decide_eq_true_2 _ Hst). simpl.
    by rewrite App_approverEntry_lookup, (lookup_ge_None_2 _ _ Hlen).
  - intros i e -> Hst Hlen. rewrite (bool_decide_eq_true_2 _ Hst). simpl.
    rewrite App_approverEntry_lookup.
    destruct (lookup_lt_is_Some_2 _ _ Hlen) as [step ->]. eauto.
  - intros db' msg.
    destruct (findExpense expenseId (getExpenses db)) as [[i e]|].
    + destruct (negb (bool_decide (e_status e = PENDING))).
      * intros [= <- <-]. tauto.
      * destruct (App.approverEntry e); [done|]. intros [= <- <-]. tauto.
    + intros [= <- <-]. tauto.
Qed.

Lemma X7_witness :
  App.approveOrReject "t1" "t2" Sample.db "nope" "u-fin" "APPROVE" ""
  = (Sample.db, Throw NotFound)
  ∧ App.approveOrReject "t1" "t2" Sample.db "x3" "u-fin" "APPROVE" ""
    = (Sample.db, Throw NotPending).
Proof.
  pose proof (X7_approveOrReject_failures "t1" "t2" Sample.db "nope" "u-fin" "APPROVE" "")
    as (H1 & _).
  pose proof (X7_approveOrReject_failures "t1" "t2" Sample.db "x3" "u-fin" "APPROVE" "")
    as (_ & H2 & _).
  split.
  - apply H1. reflexivity.
  - apply (H2 2 Sample.cushion); [reflexivity | discriminate].
Defined.

(** X8. In src/js/app.js an override closes an expense to decisions for
    good: after adminOverride on an expense, whatever the target status,
    approveOrReject on the same id fails and changes nothing, with "No
    active approval step" when the target status was PENDING and with
    "Expense is not pending" otherwise. *)
Theorem X8_override_closes (now : string) (db : Store)
    (expenseId target adminId : string) (i : nat) (e : Expense) :
  findExpense expenseId (getExpenses db) = Some (i, e) →
  ∀ nowPush nowEval userId decision comment,
    App.approveOrReject nowPush nowEval
      (App.adminOverride now db expenseId target adminId).1
      expenseId userId decision comment
    = ((App.adminOverride now db expenseId target adminId).1,
       Throw (if bool_decide (target = PENDING) then NoActiveStep else NotPending)).
Proof.
  intros Hfind nowPush nowEval userId decision comment.
  destruct (findExpense_Some _ _ _ _ Hfind) as [_ Hid].
  rewrite (App_adminOverride_found _ _ _ _ _ _ _ Hfind). simpl.
  set (e3 := mkExpense _ _ _ _ _).
  unfold App.approveOrReject. simpl.
  rewrite (findExpense_insert _ _ _ e e3 Hfind Hid). simpl.
  case_bool_decide; simpl; [|done].
  rewrite App_approverEntry_lookup. subst e3. simpl.
  by rewrite lookup_ge_None_2.
Qed.

Lemma X8_witness :
  App.approveOrReject "t1" "t2"
    (App.adminOverride "t0" Sample.db "x1" PENDING "u-admin").1 "x1" "u-manager" "APPROVE" ""
  = ((App.adminOverride "t0" Sample.db "x1" PENDING "u-admin").1, Throw NoActiveStep).
Proof.
  apply (X8_override_closes "t0" Sample.db "x1" PENDING "u-admin" 0 Sample.lunch).
  reflexivity.
Defined.

(** The three things an evaluation of src/js/app.js can do. *)
Lemma App_rulesEval_shape (now : string) (db : Store) (e : Expense) :
  (steps (e_approvals e) !! stepIndex (e_approvals e) = None
   ∧ App.rulesEval now db e = e)
  ∨ (∃ step, steps (e_approvals e) !! stepIndex (e_approvals e) = Some step
       ∧ Exists (λ a, ap_decision a = REJECT) (st_approvals step)
       ∧ App.rulesEval now db e =
           mkExpense (e_id e) (e_userId e) REJECTED (e_approvals e)
             (e_history e ++ [mkHistory now REJECTED (lastUserId (st_approvals step))]))
  ∨ (∃ step, steps (e_approvals e) !! stepIndex (e_approvals e) = Some step
       ∧ Forall (λ a, ap_decision a ≠ REJECT) (st_approvals step)
       ∧ ((S (stepIndex (e_approvals e)) < length (steps (e_approvals e))
           ∧ App.rulesEval now db e =
               mkExpense (e_id e) (e_userId e) (e_status e)
                 (mkApprovals (S (stepIndex (e_approvals e))) (steps (e_approvals e)))
                 (e_history e))
          ∨ (length (steps (e_approvals e)) ≤ S (stepIndex (e_approvals e))
             ∧ App.rulesEval now db e =
                 mkExpense (e_id e) (e_userId e) APPROVED (e_approvals e)
                   (e_history e
                    ++ [mkHistory now APPROVED (lastUserId (st_approvals step))])))).
Proof.
  destruct (steps (e_approvals e) !! stepIndex (e_approvals e)) as [step|] eqn:Hstep.
  - right. rewrite (App_rulesEval_active _ _ _ _ Hstep).
    destruct (existsb isReject (st_approvals step)) eqn:Hrej.
    + left. exists step. split_and!; [done | by apply existsb_isReject | done].
    + right. exists step. split_and!; [done | by apply existsb_isReject_false |].
      unfold App.advance. rewrite Nat.add_1_r. case_bool_decide.
      * right. split; [lia | done].
      * left. split; [lia | done].
  - left. split; [done|]. by apply App_rulesEval_finished.
Qed.

Lemma continues_refl (e : Expense) : continues e e.
Proof.
  unfold continues. split_and!; try done.
  apply Forall_Forall2_diag, Forall_true. done.
Qed.

Lemma continues_trans (e1 e2 e3 : Expense) :
  continues e1 e2 → continues e2 e3 → continues e1 e3.
Proof.
  intros (Hi1 & Hu1 & Hh1 & Hs1) (Hi2 & Hu2 & Hh2 & Hs2).
  unfold continues. split_and!; try congruence.
  - by etrans.
  - eapply Forall2_trans; [|exact Hs1|exact Hs2].
    intros s1 s2 s3 [Hr1 Hp1] [Hr2 Hp2]. split; [congruence | by etrans].
Qed.

Lemma continues_push (idx : nat) (a : Approval) (e : Expense) :
  continues e (pushApproval idx a e).
Proof.
  unfold continues, pushApproval. simpl. split_and!; try done.
  apply Forall2_alter_r.
  - apply Forall_Forall2_diag, Forall_true. done.
  - intros s s' _ _ [Hr Hp]. simpl. split; [done|]. by apply prefix_app_r.
Qed.

Lemma continues_rulesEval (now : string) (db : Store) (e : Expense) :
  continues e (App.rulesEval now db e).
Proof.
  assert (Hsteps : Forall2 (λ s s', st_role s' = st_role s
                              ∧ st_approvals s `prefix_of` st_approvals s')
                     (steps (e_approvals e)) (steps (e_approvals e))).
  { apply Forall_Forall2_diag, Forall_true. done. }
  destruct (App_rulesEval_shape now db e)
    as [[_ ->] | [(step & _ & _ & ->) | (step & _ & _ & [[_ ->] | [_ ->]])]].
  - apply continues_refl.
  - unfold continues. simpl. split_and!; try done. by apply prefix_app_r.
  - unfold continues. simpl. by split_and!.
  - unfold continues. simpl. split_and!; try done. by apply prefix_app_r.
Qed.

(** X9. A successful approveOrReject of src/js/app.js rewrites only the
    expense it was called for, at its place in the list, and returns its
    new status, one of PENDING, APPROVED and REJECTED. The expense keeps
    its id, its submitter and the roles of its chain; the decisions it had
    are all still there, in order, with exactly one more at the step that
    was current and none added elsewhere; its history is the old one with
    at most one entry added; its cursor stays or moves on by one. *)
Theorem X9_approveOrReject_effect (nowPush nowEval : string) (db : Store)
    (expenseId userId decision comment : string) (i : nat) (e : Expense) (step : Step) :
  findExpense expenseId (getExpenses db) = Some (i, e) →
  e_status e = PENDING →
  steps (e_approvals e) !! stepIndex (e_approvals e) = Some step →
  ∃ e',
    App.approveOrReject nowPush nowEval db expenseId userId decision comment
    = (setExpenses (<[i := e']> (getExpenses db)) db, Ok (e_status e'))
    ∧ continues e e'
    ∧ (e_status e' = PENDING ∨ e_status e' = APPROVED ∨ e_status e' = REJECTED)
    ∧ steps (e_approvals e')
      = <[stepIndex (e_approvals e) :=
            mkStep (st_role step)
              (st_approvals step
               ++ [mkApproval userId (normalizeDecision decision) comment nowPush])]>
          (steps (e_approvals e))
    ∧ stepIndex (e_approvals e) ≤ stepIndex (e_approvals e')
    ∧ stepIndex (e_approvals e') ≤ S (stepIndex (e_approvals e))
    ∧ length (e_history e') ≤ S (length (e_history e)).
Proof.
  intros Hfind Hpend Hstep.
  rewrite (App_approveOrReject_active _ _ _ _ _ _ _ _ _ _ Hfind Hpend Hstep). simpl.
  set (a := mkApproval userId (normalizeDecision decision) comment nowPush).
  set (pushed := pushApproval (stepIndex (e_approvals e)) a e).
  exists (App.rulesEval nowEval db pushed).
  assert (Hpsteps : steps (e_approvals pushed)
                    = <[stepIndex (e_approvals e) :=
                          mkStep (st_role step) (st_approvals step ++ [a])]>
                        (steps (e_approvals e))).
  { subst pushed. unfold pushApproval. simpl.
    apply list_eq. intros j. rewrite list_lookup_alter, list_lookup_insert.
    case_decide as Hj.
    - subst j. rewrite Hstep. simpl.
      rewrite decide_True; [done|]. split; [done|]. by eapply lookup_lt_Some.
    - rewrite decide_False; [done|]. tauto. }
  split_and!.
  - done.
  - eapply continues_trans; [apply continues_push | apply continues_rulesEval].
  - destruct (App_rulesEval_shape nowEval db pushed)
      as [[_ ->] | [(s & _ & _ & ->) | (s & _ & _ & [[_ ->] | [_ ->]])]];
      simpl; tauto.
  - by rewrite (proj1 (App_rulesEval_steps _ _ _)).
  - destruct (App_rulesEval_shape nowEval db pushed)
      as [[_ ->] | [(s & _ & _ & ->) | (s & _ & _ & [[_ ->] | [_ ->]])]];
      simpl; lia.
  - destruct (App_rulesEval_shape nowEval db pushed)
      as [[_ ->] | [(s & _ & _ & ->) | (s & _ & _ & [[_ ->] | [_ ->]])]];
      simpl; lia.
  - destruct (App_rulesEval_shape nowEval db pushed)
      as [[_ ->] | [(s & _ & _ & ->) | (s & _ & _ & [[_ ->] | [_ ->]])]];
      simpl; rewrite ?length_app; simpl; lia.
Qed.

Lemma X9_witness :
  ∃ e',
    App.approveOrReject "t1" "t2" Sample.db "x1" "u-manager" "APPROVE" "ok"
    = (setExpenses (<[0 := e']> (getExpenses Sample.db)) Sample.db, Ok (e_status e'))
    ∧ continues Sample.lunch e'
    ∧ (e_status e' = PENDING ∨ e_status e' = APPROVED ∨ e_status e' = REJECTED)
    ∧ steps (e_approvals e')
      = <[0 := mkStep ROLES.MANAGER
                 ([] ++ [mkApproval "u-manager" (normalizeDecision "APPROVE") "ok" "t1"])]>
          (steps (e_approvals Sample.lunch))
    ∧ 0 ≤ stepIndex (e_approvals e')
    ∧ stepIndex (e_approvals e') ≤ 1
    ∧ length (e_history e') ≤ 2.
Proof.
  apply (X9_approveOrReject_effect "t1" "t2" Sample.db "x1" "u-manager" "APPROVE" "ok"
           0 Sample.lunch (mkStep ROLES.MANAGER [])); reflexivity.
Defined.

(** ** What every sequence of operations preserves *)

Lemma Forall2_continues_refl (l : list Expense) : Forall2 continues l l.
Proof. apply Forall_Forall2_diag, Forall_true, continues_refl. Qed.

Lemma Forall2_continues_insert (l : list Expense) (i : nat) (e e' : Expense) :
  l !! i = Some e → continues e e' → Forall2 continues l (<[i := e']> l).
Proof.
  intros Hi Hc. rewrite <- (list_insert_id l i e Hi) at 1.
  apply Forall2_insert; [apply Forall2_continues_refl | done].
Qed.

Lemma runOp_continues (op : Op) (db : Store) :
  ∃ newer kept,
    getExpenses (runOp op db) = newer ++ kept
    ∧ Forall2 continues (getExpenses db) kept.
Proof.
  destruct op; simpl.
  - eexists [_], _. split; [reflexivity | apply Forall2_continues_refl].
  - exists []. unfold App.approveOrReject.
    destruct (findExpense expenseId (getExpenses db)) as [[i e]|] eqn:Hfind;
      [|eexists; split; [reflexivity | apply Forall2_continues_refl]].
    destruct (negb (bool_decide (e_status e = PENDING)));
      [eexists; split; [reflexivity | apply Forall2_continues_refl]|].
    destruct (App.approverEntry e);
      [|eexists; split; [reflexivity | apply Forall2_continues_refl]].
    eexists. split; [reflexivity|]. simpl.
    apply (Forall2_continues_insert _ _ e).
    + by apply findExpense_Some in Hfind as [? _].
    + eapply continues_trans; [apply continues_push | apply continues_rulesEval].
  - exists []. unfold App.adminOverride.
    destruct (findExpense expenseId (getExpenses db)) as [[i e]|] eqn:Hfind;
      [|eexists; split; [reflexivity | apply Forall2_continues_refl]].
    eexists. split; [reflexivity|]. simpl.
    apply (Forall2_continues_insert _ _ e).
    + by apply findExpense_Some in Hfind as [? _].
    + unfold continues. simpl. split_and!; try done.
      * by apply prefix_app_r.
      * apply Forall_Forall2_diag, Forall_true. done.
  - exists [], (getExpenses db). split; [done | apply Forall2_continues_refl].
  - exists [], (getExpenses db). split; [done | apply Forall2_continues_refl].
Qed.

(** X10. Nothing that src/js/app.js does to the store (submitting,
    deciding, overriding, saving rules, removing a role, in any number and
    order) removes or reorders a stored expense or rewrites its past: the
    expenses stored before are all still there, in the same order, below
    those submitted since, each with the same id, submitter and chain
    roles, and with its earlier decisions and history entries still in
    place at the beginning of the present ones. *)
Theorem X10_expenses_append_only (ops : list Op) (db : Store) :
  ∃ newer kept,
    getExpenses (run ops db) = newer ++ kept
    ∧ Forall2 continues (getExpenses db) kept.
Proof.
  revert db. induction ops as [|op ops IH]; intros db.
  - exists [], (getExpenses db). split; [done | apply Forall2_continues_refl].
  - destruct (runOp_continues op db) as (newer0 & kept0 & H0 & Hk0).
    destruct (IH (runOp op db)) as (newer1 & kept1 & H1 & Hk1).
    rewrite H0 in Hk1.
    apply Forall2_app_inv_l in Hk1 as (k1a & k1b & Hka & Hkb & ->).
    exists (newer1 ++ k1a), k1b. split.
    + unfold run in *. simpl. by rewrite H1, app_assoc.
    + eapply Forall2_trans; [|exact Hk0|exact Hkb].
      intros ???. apply continues_trans.
Qed.

Lemma wellFormed_submit (now id userId : string) (db : Store) :
  wellFormed (mkExpense id userId PENDING (AppAdmin.newApprovals db)
                        [mkHistory now PENDING userId]).
Proof.
  unfold wellFormed, AppAdmin.newApprovals. simpl.
  assert (Hempty : ∀ j s,
            ((λ r, mkStep r []) <$> r_steps (getRules db)) !! j = Some s →
            st_approvals s = []).
  { intros j s Hj. rewrite list_lookup_fmap in Hj.
    destruct (r_steps (getRules db) !! j); simpl in Hj; [|done].
    by inversion Hj. }
  split_and!.
  - lia.
  - intros j s _. apply Hempty.
  - intros _ s Hs. rewrite (Hempty _ _ Hs). constructor.
Qed.

Lemma wellFormed_override (now status adminId : string) (e : Expense) :
  wellFormed (mkExpense (e_id e) (e_userId e) status
                (mkApprovals (length (steps (e_approvals e))) (steps (e_approvals e)))
                (e_history e ++ [mkHistory now status adminId])).
Proof.
  unfold wellFormed. simpl. split_and!.
  - done.
  - intros j s Hj Hs. apply lookup_lt_Some in Hs. lia.
  - intros _ s Hs. apply lookup_lt_Some in Hs. lia.
Qed.

Lemma wellFormed_decide (now : string) (db : Store) (e : Expense) (a : Approval) :
  wellFormed e → e_status e = PENDING →
  wellFormed (App.rulesEval now db (pushApproval (stepIndex (e_approvals e)) a e)).
Proof.
  intros (Hle & Hafter & Hcur) Hpend.
  set (idx := stepIndex (e_approvals e)) in *.
  set (pushed := pushApproval idx a e).
  assert (Hother : ∀ j, idx < j →
            steps (e_approvals pushed) !! j = steps (e_approvals e) !! j).
  { intros j Hj. subst pushed. unfold pushApproval. simpl.
    apply list_lookup_alter_ne. lia. }
  assert (Hlen : length (steps (e_approvals pushed)) = length (steps (e_approvals e))).
  { subst pushed. unfold pushApproval. simpl. apply length_alter. }
  assert (Hidx : stepIndex (e_approvals pushed) = idx) by done.
  assert (Hst : e_status pushed = PENDING) by done.
  clearbody pushed.
  destruct (App_rulesEval_shape now db pushed)
    as [[Hnone ->] | [(s & Hs & Hrej & ->) | (s & Hs & Hno & [[Hnext ->] | [Hnext ->]])]].
  - unfold wellFormed. rewrite Hidx, Hlen. split_and!.
    + done.
    + intros j s Hj. rewrite (Hother j Hj). by apply Hafter.
    + intros _ s Hs. rewrite Hidx in Hnone. congruence.
  - unfold wellFormed. simpl. rewrite Hidx, Hlen. split_and!.
    + done.
    + intros j s' Hj. rewrite (Hother j Hj). by apply Hafter.
    + intros Hcontra. discriminate Hcontra.
  - unfold wellFormed. simpl. rewrite Hidx, Hlen in *. split_and!.
    + lia.
    + intros j s' Hj. rewrite (Hother j) by lia. apply Hafter. lia.
    + intros _ s' Hs'. rewrite (Hother (S idx)) in Hs' by lia.
      rewrite (Hafter (S idx) s'); [constructor | lia | done].
  - unfold wellFormed. simpl. rewrite Hidx, Hlen. split_and!.
    + done.
    + intros j s' Hj. rewrite (Hother j Hj). by apply Hafter.
    + intros Hcontra. discriminate Hcontra.
Qed.

Lemma runOp_wellFormed (op : Op) (db : Store) :
  Forall wellFormed (getExpenses db) → Forall wellFormed (getExpenses (runOp op db)).
Proof.
  intros Hwf. destruct op; simpl; try done.
  - constructor; [apply wellFormed_submit | done].
  - unfold App.approveOrReject.
    destruct (findExpense expenseId (getExpenses db)) as [[i e]|] eqn:Hfind; [|done].
    destruct (bool_decide (e_status e = PENDING)) eqn:Hst; simpl; [|done].
    apply bool_decide_eq_true in Hst.
    destruct (App.approverEntry e); [|done]. simpl.
    apply Forall_insert; [done|].
    apply wellFormed_decide; [|done].
    apply findExpense_Some in Hfind as [Hi _].
    by eapply (Forall_lookup_1 _ _ _ _ Hwf).
  - unfold App.adminOverride.
    destruct (findExpense expenseId (getExpenses db)) as [[i e]|] eqn:Hfind; [|done].
    simpl. apply Forall_insert; [done|]. apply wellFormed_override.
Qed.

(** X11. Every sequence of operations of src/js/app.js keeps the stored
    expenses in shape: if, for every stored expense, the cursor is at most
    the length of the chain, the steps after the cursor hold no decision
    and a pending expense has no REJECT at its current step, then the same
    is true after the operations. (A store without expenses, as company
    setup leaves it, is in shape.) *)
Theorem X11_expenses_stay_well_formed (ops : list Op) (db : Store) :
  Forall wellFormed (getExpenses db) →
  Forall wellFormed (getExpenses (run ops db)).
Proof.
  revert db. induction ops as [|op ops IH]; intros db Hwf; [done|].
  unfold run in *. simpl. apply IH. by apply runOp_wellFormed.
Qed.

Lemma X11_witness :
  Forall wellFormed
    (getExpenses
       (run [OpSubmit "t0" "x1" "u-emp";
             OpDecide "t1" "t1" "x1" "u-manager" "APPROVE" "";
             OpDecide "t2" "t2" "x1" "u-fin" "no" "";
             OpOverride "t3" "x1" PENDING "u-admin"]
            (mkStore Sample.seedUsers [] (Some DEFAULT_RULES) []))).
Proof.
  apply (X11_expenses_stay_well_formed _ (mkStore Sample.seedUsers [] (Some DEFAULT_RULES) [])).
  constructor.
Defined.

(** ** The role list *)

Lemma uniqFrom_fresh (seen xs : list string) (x : string) :
  x ∈ seen → x ∉ uniqFrom seen xs.
Proof. intros Hx Hin. apply elem_of_uniqFrom in Hin. tauto. Qed.

Lemma NoDup_uniqFrom (seen xs : list string) : NoDup (uniqFrom seen xs).
Proof.
  revert seen. induction xs as [|x xs IH]; intros seen; simpl; [constructor|].
  case_bool_decide; [apply IH|].
  constructor; [|apply IH]. apply uniqFrom_fresh. left.
Qed.

Lemma uniqFrom_id (seen xs : list string) :
  NoDup xs → (∀ x, x ∈ xs → x ∉ seen) → uniqFrom seen xs = xs.
Proof.
  revert seen. induction xs as [|x xs IH]; intros seen Hnd Hdisj; [done|]. simpl.
  apply NoDup_cons in Hnd as [Hx Hnd].
  rewrite bool_decide_eq_false_2 by (apply Hdisj; left).
  f_equal. apply IH; [done|]. intros y Hy. rewrite not_elem_of_cons. split.
  - intros ->. done.
  - apply Hdisj. by right.
Qed.

Lemma arrayFromSet_id (xs : list string) : NoDup xs → arrayFromSet xs = xs.
Proof.
  intros Hnd. apply uniqFrom_id; [done|]. intros x _ Hx. inversion Hx.
Qed.

Lemma filter_all {A : Type} (P : A → Prop) `{∀ x, stdpp.base.Decision (P x)} (l : list A) :
  Forall P l → filter P l = l.
Proof.
  induction 1 as [|x l Hx Hl IH]; [done|].
  by rewrite filter_cons_True, IH.
Qed.

Lemma getAllRoles_unfold (db : Store) :
  getAllRoles db
  = BASE_ROLES
    ++ uniqFrom [ROLES.CFO; ROLES.ADMIN; ROLES.DIRECTOR; ROLES.FINANCE;
                 ROLES.MANAGER; ROLES.EMPLOYEE] (getCustomRoles db).
Proof. reflexivity. Qed.

Lemma getAllRoles_of_clean (db : Store) :
  NoDup (getCustomRoles db) →
  (∀ r, r ∈ getCustomRoles db → r ∉ BASE_ROLES) →
  getAllRoles db = BASE_ROLES ++ getCustomRoles db.
Proof.
  intros Hnd Hdisj. rewrite getAllRoles_unfold. f_equal.
  apply uniqFrom_id; [done|]. intros x Hx Hin. apply (Hdisj x Hx).
  unfold BASE_ROLES. rewrite !elem_of_cons in *. tauto.
Qed.

(** X12. getAllRoles lists every role once: first the six built-in roles
    in their fixed order, then the custom roles that are not built-in
    names, each at its first occurrence; a name is in the list exactly
    when it is built in or custom. When the custom list has no duplicate
    and no built-in name the list is the built-in roles followed by the
    custom list as stored. *)
Theorem X12_getAllRoles (db : Store) :
  NoDup (getAllRoles db)
  ∧ BASE_ROLES `prefix_of` getAllRoles db
  ∧ (∀ r, r ∈ getAllRoles db ↔ r ∈ BASE_ROLES ∨ r ∈ getCustomRoles db)
  ∧ (NoDup (getCustomRoles db) →
     (∀ r, r ∈ getCustomRoles db → r ∉ BASE_ROLES) →
     getAllRoles db = BASE_ROLES ++ getCustomRoles db).
Proof.
  split_and!.
  - apply NoDup_uniqFrom.
  - rewrite getAllRoles_unfold. by apply prefix_app_r.
  - intros r. unfold getAllRoles. by rewrite elem_of_arrayFromSet, elem_of_app.
  - apply getAllRoles_of_clean.
Qed.

Lemma X12_witness :
  getAllRoles Sample.dbAuditor = BASE_ROLES ++ ["AUDITOR"].
Proof.
  apply (X12_getAllRoles Sample.dbAuditor).
  - apply (bool_decide_unpack _). vm_compute. exact I.
  - intros r Hr. apply list_elem_of_singleton in Hr. subst r.
    apply (bool_decide_unpack _). vm_compute. exact I.
Defined.

Lemma store_eq (db db' : Store) :
  users db = users db' → expenses db = expenses db' →
  rules db = rules db' → customRoles db = customRoles db' → db = db'.
Proof. destruct db, db'. simpl. by intros -> -> -> ->. Qed.

Lemma removeRole_users (role : string) (db : Store) :
  users (AppAdmin.removeRole role db)
  = (λ u, mkUser (u_id u) (filter (λ x, x ≠ role) (u_roles u)) (u_managerId u))
      <$> users db.
Proof. reflexivity. Qed.

Lemma removeRole_stored_rules (role : string) (db : Store) :
  rules (AppAdmin.removeRole role db) = Some (getRules (AppAdmin.removeRole role db)).
Proof. reflexivity. Qed.

Lemma removeRole_customRoles (role : string) (db : Store) :
  customRoles (AppAdmin.removeRole role db)
  = arrayFromSet (filter (λ r, r ≠ role) (customRoles db)).
Proof. reflexivity. Qed.

Lemma filter_ne_twice (role : string) (l : list string) :
  filter (λ x, x ≠ role) (filter (λ x, x ≠ role) l) = filter (λ x, x ≠ role) l.
Proof.
  apply filter_all, Forall_forall. intros x Hx.
  by apply list_elem_of_filter in Hx as [? _].
Qed.

Lemma removeRole_rules_twice (role : string) (db : Store) :
  role ∉ BASE_ROLES →
  getRules (AppAdmin.removeRole role (AppAdmin.removeRole role db))
  = getRules (AppAdmin.removeRole role db).
Proof.
  intros Hcustom.
  assert (Hcfo : ROLES.CFO ≠ role) by (intros <-; apply Hcustom, builtin_CFO).
  rewrite (removeRole_rules role (AppAdmin.removeRole role db)).
  rewrite !removeRole_rules. simpl.
  set (f := filter (λ x, x ≠ role) (r_steps (getRules db))).
  set (kept := if bool_decide (length f = 0)
               then [ROLES.MANAGER; ROLES.FINANCE; ROLES.DIRECTOR] else f).
  assert (Hsteps : filter (λ x, x ≠ role) kept = kept).
  { subst kept. case_bool_decide.
    - apply filter_all, Forall_forall. intros x Hx ->.
      by apply Hcustom, default_chain_builtin.
    - apply filter_ne_twice. }
  assert (Hne : length kept ≠ 0).
  { subst kept. case_bool_decide; [simpl; lia | done]. }
  rewrite Hsteps, (bool_decide_eq_false_2 _ Hne).
  f_equal.
  destruct (bool_decide (sa_role (r_specificApproverRule (getRules db)) = role)) eqn:Hsa;
    simpl.
  - by rewrite (bool_decide_eq_false_2 _ Hcfo).
  - by rewrite Hsa.
Qed.

(** X13. removeRole never leaves the rule set without steps, whatever
    name it is given, and for a name that is not built in removing it a
    second time changes nothing. *)
Theorem X13_removeRole_steps_and_repeat (role : string) (db : Store) :
  r_steps (getRules (AppAdmin.removeRole role db)) ≠ []
  ∧ (role ∉ BASE_ROLES →
     AppAdmin.removeRole role (AppAdmin.removeRole role db) = AppAdmin.removeRole role db).
Proof.
  split.
  - rewrite removeRole_rules. simpl. case_bool_decide as Hlen; [done|].
    intros Hnil. by rewrite Hnil in Hlen.
  - intros Hcustom. apply store_eq.
    + rewrite (removeRole_users role (AppAdmin.removeRole role db)), removeRole_users.
      rewrite <- list_fmap_compose. apply list_fmap_ext. intros _ u _. simpl.
      by rewrite filter_ne_twice.
    + reflexivity.
    + rewrite !removeRole_stored_rules. f_equal. by apply removeRole_rules_twice.
    + rewrite (removeRole_customRoles role (AppAdmin.removeRole role db)),
        removeRole_customRoles.
      rewrite (filter_all (λ r, r ≠ role)
                 (arrayFromSet (filter (λ r, r ≠ role) (customRoles db)))).
      * apply arrayFromSet_id, NoDup_uniqFrom.
      * apply Forall_forall. intros x Hx. rewrite elem_of_arrayFromSet in Hx.
        by apply list_elem_of_filter in Hx as [? _].
Qed.

Lemma X13_witness :
  AppAdmin.removeRole "AUDITOR" (AppAdmin.removeRole "AUDITOR" Sample.dbAuditor)
  = AppAdmin.removeRole "AUDITOR" Sample.dbAuditor.
Proof.
  apply (X13_removeRole_steps_and_repeat "AUDITOR" Sample.dbAuditor).
  apply (bool_decide_unpack _). vm_compute. exact I.
Defined.

(** ** Role names *)

Lemma roleChar_plain (c : ascii) :
  AppRoles.isRoleChar c = true → AppRoles.isSpace c = false ∧ AppRoles.upperChar c = c.
Proof.
  destruct c as [[] [] [] [] [] [] [] []]; vm_compute;
    intros H; first [discriminate H | split; reflexivity].
Qed.

Lemma dropSpaces_roleChars (l : list ascii) :
  Forall (λ c, AppRoles.isRoleChar c = true) l → AppRoles.dropSpaces l = l.
Proof.
  destruct 1 as [|c l Hc _]; [done|]. simpl.
  by rewrite (proj1 (roleChar_plain c Hc)).
Qed.

Lemma trim_roleChars (l : list ascii) :
  Forall (λ c, AppRoles.isRoleChar c = true) l → AppRoles.trim l = l.
Proof.
  intros Hl. unfold AppRoles.trim.
  rewrite (dropSpaces_roleChars l Hl), dropSpaces_roleChars.
  - apply reverse_involutive.
  - by apply Forall_reverse.
Qed.

Lemma upper_roleChars (l : list ascii) :
  Forall (λ c, AppRoles.isRoleChar c = true) l → AppRoles.upperChar <$> l = l.
Proof.
  induction 1 as [|c l Hc _ IH]; [done|].
  rewrite fmap_cons, IH. by rewrite (proj2 (roleChar_plain c Hc)).
Qed.

Lemma replaceSpaceRuns_roleChars (b : bool) (l : list ascii) :
  Forall (λ c, AppRoles.isRoleChar c = true) l → AppRoles.replaceSpaceRuns b l = l.
Proof.
  intros Hl. revert b. induction Hl as [|c l Hc _ IH]; intros b; [done|]. simpl.
  by rewrite (proj1 (roleChar_plain c Hc)), IH.
Qed.

Lemma normalizeRoleName_chars (input : string) :
  Forall (λ c, AppRoles.isRoleChar c = true)
         (String.list_ascii_of_string (AppRoles.normalizeRoleName input)).
Proof.
  unfold AppRoles.normalizeRoleName.
  rewrite String.list_ascii_of_string_of_list_ascii.
  apply Forall_forall. intros c Hc. by apply list_elem_of_filter in Hc as [? _].
Qed.

Lemma normalizeRoleName_fixed (r : string) :
  Forall (λ c, AppRoles.isRoleChar c = true) (String.list_ascii_of_string r) →
  AppRoles.normalizeRoleName r = r.
Proof.
  intros Hr. unfold AppRoles.normalizeRoleName.
  rewrite (trim_roleChars _ Hr), (upper_roleChars _ Hr),
    (replaceSpaceRuns_roleChars _ _ Hr), (filter_all _ _ Hr).
  apply String.string_of_list_ascii_of_string.
Qed.

Lemma toUpperCase_fixed (r : string) :
  Forall (λ c, AppRoles.isRoleChar c = true) (String.list_ascii_of_string r) →
  AppRoles.toUpperCase r = r.
Proof.
  intros Hr. unfold AppRoles.toUpperCase. rewrite (upper_roleChars _ Hr).
  apply String.string_of_list_ascii_of_string.
Qed.

(** X14. On ASCII text normalizeRoleName yields a name made only of the
    characters A-Z, 0-9, underscore and hyphen (so without white space or
    lower-case letters), and normalising such a name again gives it back
    unchanged. *)
Theorem X14_normalizeRoleName (input : string) :
  asciiOnly input →
  Forall (λ c, AppRoles.isRoleChar c = true)
         (String.list_ascii_of_string (AppRoles.normalizeRoleName input))
  ∧ AppRoles.normalizeRoleName (AppRoles.normalizeRoleName input)
    = AppRoles.normalizeRoleName input
  ∧ AppRoles.toUpperCase (AppRoles.normalizeRoleName input)
    = AppRoles.normalizeRoleName input.
Proof.
  intros _. split_and!.
  - apply normalizeRoleName_chars.
  - apply normalizeRoleName_fixed, normalizeRoleName_chars.
  - apply toUpperCase_fixed, normalizeRoleName_chars.
Qed.

Lemma X14_witness :
  AppRoles.normalizeRoleName "  team lead (eu) " = "TEAM_LEAD_EU"
  ∧ AppRoles.normalizeRoleName (AppRoles.normalizeRoleName "  team lead (eu) ")
    = AppRoles.normalizeRoleName "  team lead (eu) ".
Proof.
  split; [reflexivity|].
  apply (X14_normalizeRoleName "  team lead (eu) ").
  apply (bool_decide_unpack _). vm_compute. exact I.
Defined.

Lemma customRolesClean_nil : customRolesClean [].
Proof. split; [constructor|]. intros r Hr. inversion Hr. Qed.

Lemma customRolesClean_upper (l : list string) :
  customRolesClean l → AppRoles.toUpperCase <$> l = l.
Proof.
  intros [_ Hall]. induction l as [|r l IH]; [done|].
  rewrite fmap_cons, IH.
  - rewrite toUpperCase_fixed; [done|]. apply Hall. left.
  - intros r' Hr'. apply Hall. by right.
Qed.

Lemma customRolesClean_removeRole (role : string) (db : Store) :
  customRolesClean (getCustomRoles db) →
  customRolesClean (getCustomRoles (AppAdmin.removeRole role db)).
Proof.
  intros [_ Hall]. unfold getCustomRoles in *. rewrite removeRole_customRoles.
  split; [apply NoDup_uniqFrom|].
  intros r Hr. rewrite elem_of_arrayFromSet in Hr.
  apply list_elem_of_filter in Hr as [_ Hr]. by apply Hall.
Qed.

Lemma arrayFromSet_snoc_fresh (l : list string) (role : string) :
  NoDup l → role ∉ l → arrayFromSet (l ++ [role]) = l ++ [role].
Proof.
  intros Hnd Hfresh. apply arrayFromSet_id, NoDup_app. split_and!; [done| |].
  - intros x Hx Hin. apply list_elem_of_singleton in Hin. by subst x.
  - apply NoDup_singleton.
Qed.

Lemma handleAddRole_clean (input : string) (db : Store) :
  customRolesClean (getCustomRoles db) →
  customRolesClean (getCustomRoles (AppRoles.handleAddRole input db).1).
Proof.
  intros Hclean. unfold AppRoles.handleAddRole.
  rewrite (customRolesClean_upper _ Hclean).
  destruct Hclean as [Hnd Hall].
  repeat case_bool_decide; simpl; try done.
  unfold getCustomRoles in *. simpl. rewrite arrayFromSet_snoc_fresh by done.
  split.
  - apply NoDup_app. split_and!; [done| |apply NoDup_singleton].
    intros x Hx Hin. apply list_elem_of_singleton in Hin. by subst x.
  - intros r Hr. apply elem_of_app in Hr as [Hr | Hr]; [by apply Hall|].
    apply list_elem_of_singleton in Hr. subst r.
    split_and!; [done | done | apply normalizeRoleName_chars].
Qed.

(** X15. handleAddRole, on ASCII text and a custom role list that is
    clean (no duplicate, no built-in name, no empty name, only the
    characters of normalised names), keeps the list clean. It appends the
    normalised name, and only it, when that name is not empty, not built
    in and not yet in the list, after which getAllRoles contains the name;
    in every other case it leaves the store as it was. Users, expenses and
    rule set are never touched. *)
Theorem X15_handleAddRole (input : string) (db : Store) :
  asciiOnly input →
  customRolesClean (getCustomRoles db) →
  let role := AppRoles.normalizeRoleName input in
  let db' := (AppRoles.handleAddRole input db).1 in
  customRolesClean (getCustomRoles db')
  ∧ (role ≠ "" → role ∉ BASE_ROLES → role ∉ getCustomRoles db →
     getCustomRoles db' = getCustomRoles db ++ [role]
     ∧ (AppRoles.handleAddRole input db).2 = "Role added"
     ∧ role ∈ getAllRoles db')
  ∧ (role = "" ∨ role ∈ BASE_ROLES ∨ role ∈ getCustomRoles db → db' = db)
  ∧ getUsers db' = getUsers db
  ∧ getExpenses db' = getExpenses db
  ∧ rules db' = rules db.
Proof.
  intros _ Hclean role db'. subst db'.
  split; [by apply handleAddRole_clean|].
  unfold AppRoles.handleAddRole. fold role.
  rewrite (customRolesClean_upper _ Hclean).
  destruct Hclean as [Hnd Hall].
  split_and!.
  - intros H1 H2 H3.
    rewrite (bool_decide_eq_false_2 _ H1), (bool_decide_eq_false_2 _ H2),
      (bool_decide_eq_false_2 _ H3). simpl.
    unfold getCustomRoles in *. simpl. rewrite arrayFromSet_snoc_fresh by done.
    split_and!; [done | done |].
    unfold getAllRoles, getCustomRoles. simpl.
    rewrite elem_of_arrayFromSet, !elem_of_cons, elem_of_arrayFromSet, elem_of_app.
    do 6 right. right. by apply list_elem_of_singleton.
  - intros H. repeat case_bool_decide; simpl; try done. tauto.
  - by repeat case_bool_decide.
  - by repeat case_bool_decide.
  - by repeat case_bool_decide.
Qed.

Lemma X15_witness :
  getCustomRoles (AppRoles.handleAddRole " team lead " Sample.db).1 = ["TEAM_LEAD"]
  ∧ (AppRoles.handleAddRole " team lead " Sample.db).2 = "Role added"
  ∧ "TEAM_LEAD" ∈ getAllRoles (AppRoles.handleAddRole " team lead " Sample.db).1.
Proof.
  assert (Hascii : asciiOnly " team lead ").
  { apply (bool_decide_unpack _). vm_compute. exact I. }
  destruct (X15_handleAddRole " team lead " Sample.db Hascii customRolesClean_nil)
    as (_ & H & _).
  apply H.
  - discriminate.
  - apply (bool_decide_unpack _). vm_compute. exact I.
  - intros Hin. inversion Hin.
Defined.

(** X16. Starting from a clean custom role list (an empty one, as company
    setup leaves it, is clean), every sequence of additions of ASCII names
    and of clicks in the roles list keeps the custom list clean. In
    particular no custom role ever bears a built-in name, and getAllRoles
    is then the built-in roles followed by the custom list as stored. *)
Theorem X16_custom_roles_stay_clean (ops : list AppRoles.RoleOp) (db : Store) :
  Forall asciiRoleOp ops →
  customRolesClean (getCustomRoles db) →
  customRolesClean (getCustomRoles (AppRoles.runRoleOps ops db))
  ∧ (∀ r, r ∈ getCustomRoles (AppRoles.runRoleOps ops db) → r ∉ BASE_ROLES)
  ∧ getAllRoles (AppRoles.runRoleOps ops db)
    = BASE_ROLES ++ getCustomRoles (AppRoles.runRoleOps ops db).
Proof.
  intros Hops Hclean.
  assert (Hfinal : customRolesClean (getCustomRoles (AppRoles.runRoleOps ops db))).
  { revert db Hclean. induction Hops as [|op ops Hop _ IH]; intros db Hclean; [done|].
    unfold AppRoles.runRoleOps in *. simpl. apply IH.
    destruct op as [input | chip confirmed]; simpl.
    - by apply handleAddRole_clean.
    - unfold AppAdmin.onRolesListClick. destruct chip as [c|]; [|done].
      destruct (AppAdmin.data_base c); [done|].
      destruct confirmed; [|done]. by apply customRolesClean_removeRole. }
  split_and!; [done | |].
  - intros r Hr. by apply (proj2 Hfinal r Hr).
  - apply getAllRoles_of_clean; [apply Hfinal|].
    intros r Hr. by apply (proj2 Hfinal r Hr).
Qed.

Lemma X16_witness :
  customRolesClean
    (getCustomRoles
       (AppRoles.runRoleOps
          [AppRoles.RoleAdd "auditor"; AppRoles.RoleAdd "Team Lead";
           AppRoles.RoleClick (Some (AppAdmin.mkChip "AUDITOR" false)) true]
          Sample.db)).
Proof.
  apply (X16_custom_roles_stay_clean _ Sample.db).
  - repeat constructor; apply (bool_decide_unpack _); vm_compute; exact I.
  - apply customRolesClean_nil.
Defined.

(** ** Deleting a user *)





(** ** The earlier revision's percentage rule *)

Lemma Legacy_no_reject_count (l : list Approval) :
  Forall (λ a, ap_decision a ≠ REJECT) l →
  length (filter (λ a, isReject a = true) l) = 0.
Proof.
  induction 1 as [|a l Ha _ IH]; [done|].
  rewrite filter_cons_False; [done|].
  unfold isReject. by rewrite (bool_decide_eq_false_2 _ Ha).
Qed.

Lemma Legacy_clampThreshold_bounds (t : nat) :
  1 ≤ Legacy.clampThreshold t ∧ Legacy.clampThreshold t ≤ 100.
Proof. unfold Legacy.clampThreshold. case_bool_decide; lia. Qed.

(** X18. In the earlier revision (src/unnamed/part_000), when the
    specific-approver scan finds nothing and the current step holds no
    REJECT, the step passes as soon as it holds one decision, whoever made
    it and whatever percentageRule says (enabled or not, any threshold):
    the cursor moves on, or the expense is approved when the rule set has
    no further step. Without any decision the expense is left as it is. *)
Theorem X18_legacy_one_approval_passes (now : string) (db : Store) (e : Expense) (step : Step) :
  Legacy.approverEntry db e = Some step →
  (sa_enabled (r_specificApproverRule (getRules db)) = true →
   Legacy.scanOverride db (sa_role (r_specificApproverRule (getRules db))) e = None) →
  Forall (λ a, ap_decision a ≠ REJECT) (st_approvals step) →
  (st_approvals step = [] → Legacy.rulesEval now db e = e)
  ∧ (st_approvals step ≠ [] →
     (S (stepIndex (e_approvals e)) < length (r_steps (getRules db)) →
      Legacy.rulesEval now db e =
        mkExpense (e_id e) (e_userId e) (e_status e)
          (mkApprovals (S (stepIndex (e_approvals e))) (steps (e_approvals e)))
          (e_history e))
     ∧ (length (r_steps (getRules db)) ≤ S (stepIndex (e_approvals e)) →
        Legacy.rulesEval now db e =
          mkExpense (e_id e) (e_userId e) APPROVED (e_approvals e)
            (e_history e ++ [mkHistory now APPROVED (lastUserId (st_approvals step))]))).
Proof.
  intros Hentry Hscan Hnorej.
  assert (Hov : (if sa_enabled (r_specificApproverRule (getRules db))
                 then Legacy.scanOverride db
                        (sa_role (r_specificApproverRule (getRules db))) e
                 else None) = None).
  { destruct (sa_enabled _); [by apply Hscan | done]. }
  pose proof (Legacy_no_reject_count _ Hnorej) as Hrej.
  pose proof (Legacy_counts_without_reject _ Hrej) as Happ.
  unfold Legacy.rulesEval. rewrite Hentry, Hov, Hrej, Happ. simpl.
  split.
  - intros ->. simpl. by rewrite andb_false_r.
  - intros Hne.
    assert (Hpos : 0 < length (st_approvals step)).
    { destruct (st_approvals step); [done | simpl; lia]. }
    rewrite (bool_decide_eq_true_2 _ Hpos), andb_true_r.
    assert (Hpass : (if pr_enabled (r_percentageRule (getRules db))
                     then Legacy.pctAtLeast (length (st_approvals step))
                            (length (st_approvals step))
                            (Legacy.clampThreshold
                               (pr_threshold (r_percentageRule (getRules db))))
                     else true) = true).
    { destruct (pr_enabled _); [|done]. unfold Legacy.pctAtLeast.
      apply bool_decide_eq_true_2.
      pose proof (Legacy_clampThreshold_bounds
                    (pr_threshold (r_percentageRule (getRules db)))). nia. }
    rewrite Hpass, Nat.add_1_r. split; intros Hnext.
    + by rewrite bool_decide_eq_false_2 by lia.
    + by rewrite bool_decide_eq_true_2 by lia.
Qed.

Lemma X18_witness :
  Legacy.rulesEval "t3"
    (setRules (mkRules [ROLES.MANAGER; ROLES.FINANCE; ROLES.DIRECTOR]
                       (mkPercentageRule true 100)
                       (mkSpecificApproverRule false ROLES.CFO) false) Sample.db)
    Sample.atFinance
  = mkExpense "x4" "u-emp" PENDING
      (mkApprovals 2 (steps (e_approvals Sample.atFinance)))
      [mkHistory "t0" PENDING "u-emp"].
Proof.
  apply (X18_legacy_one_approval_passes "t3" _ Sample.atFinance
           (mkStep ROLES.FINANCE [mkApproval "u-fin" APPROVE "" "t2"])).
  - reflexivity.
  - discriminate.
  - repeat constructor. discriminate.
  - discriminate.
  - simpl. lia.
Defined.

(** ** Utilities *)

Lemma toInt32_repr (z : Z) : ∃ k : Z, Util.toInt32 z = (z + k * 2 ^ 32)%Z.
Proof.
  exists (- ((z + 2 ^ 31) `div` 2 ^ 32))%Z. unfold Util.toInt32.
  change (2 ^ 32)%Z with 4294967296%Z. change (2 ^ 31)%Z with 2147483648%Z.
  pose proof (Z.div_mod (z + 2147483648)%Z 4294967296%Z ltac:(lia)). lia.
Qed.

Lemma toInt32_shift (z k : Z) : Util.toInt32 (z + k * 2 ^ 32) = Util.toInt32 z.
Proof.
  unfold Util.toInt32.
  replace (z + k * 2 ^ 32 + 2 ^ 31)%Z with (z + 2 ^ 31 + k * 2 ^ 32)%Z by lia.
  by rewrite Z.mod_add by done.
Qed.

Lemma toInt32_range (z : Z) : (- 2 ^ 31 ≤ Util.toInt32 z < 2 ^ 31)%Z.
Proof.
  unfold Util.toInt32.
  change (2 ^ 32)%Z with 4294967296%Z. change (2 ^ 31)%Z with 2147483648%Z.
  pose proof (Z.mod_pos_bound (z + 2147483648)%Z 4294967296%Z ltac:(lia)). lia.
Qed.

Lemma hashStep_poly (h' c : Z) :
  Util.hashStep (Util.toInt32 h') c = Util.toInt32 (31 * h' + c).
Proof.
  unfold Util.hashStep, Util.shiftLeft5.
  rewrite Z.shiftl_mul_pow2 by lia.
  destruct (toInt32_repr h') as [k1 Hk1].
  destruct (toInt32_repr (Util.toInt32 h')) as [k0 Hk0].
  destruct (toInt32_repr (Util.toInt32 (Util.toInt32 h') * 2 ^ 5)) as [k2 Hk2].
  rewrite Hk2, Hk0, Hk1.
  replace ((h' + k1 * 2 ^ 32 + k0 * 2 ^ 32) * 2 ^ 5 + k2 * 2 ^ 32
           - (h' + k1 * 2 ^ 32) + c)%Z
    with (31 * h' + c + (31 * k1 + 32 * k0 + k2) * 2 ^ 32)%Z
    by (change (2 ^ 32)%Z with 4294967296%Z; change (2 ^ 5)%Z with 32%Z; lia).
  apply toInt32_shift.
Qed.

Lemma hash_loop_poly (codes : list Z) (h' : Z) :
  foldl Util.hashStep (Util.toInt32 h') codes
  = Util.toInt32 (foldl (λ h c, 31 * h + c)%Z h' codes).
Proof.
  revert h'. induction codes as [|c codes IH]; intros h'; [done|].
  simpl. by rewrite hashStep_poly, IH.
Qed.

(** X20. The fallback of hashText (taken when SubtleCrypto is not
    available) computes, over the UTF-16 code units of the text, the
    polynomial hash with multiplier 31 reduced to a signed 32-bit integer,
    and appends its absolute value, a number between 0 and 2^31
    inclusive, to the letter h. *)
Theorem X20_hashText_fallback (codes : list Z) :
  Forall (λ c, 0 ≤ c < 65536)%Z codes →
  Util.hashFallback codes = Z.abs (Util.toInt32 (Util.poly31 codes))
  ∧ (0 ≤ Util.hashFallback codes ≤ 2 ^ 31)%Z.
Proof.
  intros _. unfold Util.hashFallback, Util.poly31.
  pose proof (hash_loop_poly codes 0) as Hloop.
  change (Util.toInt32 0) with 0%Z in Hloop. rewrite Hloop.
  split; [done|].
  pose proof (toInt32_range (foldl (λ h c, 31 * h + c)%Z 0%Z codes)) as Hr.
  change (2 ^ 31)%Z with 2147483648%Z in *. lia.
Qed.

Lemma X20_witness :
  Util.hashFallback [97; 98; 99]%Z = 96354%Z
  ∧ (0 ≤ Util.hashFallback [97; 98; 99]%Z ≤ 2 ^ 31)%Z.
Proof.
  destruct (X20_hashText_fallback [97; 98; 99]%Z) as [H1 H2].
  - repeat constructor; lia.
  - split; [rewrite H1; reflexivity | exact H2].
Defined.

(** ** Approving, and deciding on a fresh expense *)

(** X21. In src/js/app.js an APPROVE recorded on a pending expense whose
    current step holds no REJECT always moves the expense forward, whoever
    records it: with a further step ahead the expense stays PENDING, its
    cursor moves to the next step and its history is unchanged; on the
    last step it becomes APPROVED, the cursor stays, and one history entry
    attributed to the recording user is added. *)
Theorem X21_approve_moves_forward (nowPush nowEval : string) (db : Store)
    (expenseId userId comment : string) (i : nat) (e : Expense) (step : Step) :
  findExpense expenseId (getExpenses db) = Some (i, e) →
  e_status e = PENDING →
  steps (e_approvals e) !! stepIndex (e_approvals e) = Some step →
  Forall (λ a, ap_decision a ≠ REJECT) (st_approvals step) →
  ∃ e',
    App.approveOrReject nowPush nowEval db expenseId userId "APPROVE" comment
    = (setExpenses (<[i := e']> (getExpenses db)) db, Ok (e_status e'))
    ∧ (S (stepIndex (e_approvals e)) < length (steps (e_approvals e)) →
       e_status e' = PENDING
       ∧ stepIndex (e_approvals e') = S (stepIndex (e_approvals e))
       ∧ e_history e' = e_history e)
    ∧ (length (steps (e_approvals e)) ≤ S (stepIndex (e_approvals e)) →
       e_status e' = APPROVED
       ∧ stepIndex (e_approvals e') = stepIndex (e_approvals e)
       ∧ e_history e' = e_history e ++ [mkHistory nowEval APPROVED userId]).
Proof.
  intros Hfind Hpend Hstep Hnorej.
  rewrite (App_approveOrReject_active _ _ _ _ _ _ _ _ _ _ Hfind Hpend Hstep). simpl.
  set (a := mkApproval userId (normalizeDecision "APPROVE") comment nowPush).
  set (pushed := pushApproval (stepIndex (e_approvals e)) a e).
  exists (App.rulesEval nowEval db pushed). split; [done|].
  assert (Hpushed : steps (e_approvals pushed) !! stepIndex (e_approvals pushed)
                    = Some (mkStep (st_role step) (st_approvals step ++ [a]))).
  { apply (pushApproval_lookup _ a _ _ Hstep). }
  assert (Hlen : length (steps (e_approvals pushed)) = length (steps (e_approvals e))).
  { subst pushed. unfold pushApproval. simpl. apply length_alter. }
  assert (Hno : existsb isReject (st_approvals step ++ [a]) = false).
  { apply existsb_isReject_false, Forall_app. split; [done|].
    repeat constructor. discriminate. }
  rewrite (App_rulesEval_active _ _ _ _ Hpushed). simpl. rewrite Hno.
  unfold App.advance. rewrite Hlen, Nat.add_1_r.
  change (stepIndex (e_approvals pushed)) with (stepIndex (e_approvals e)).
  split; intros Hnext.
  - rewrite bool_decide_eq_false_2 by lia. by split_and!.
  - rewrite bool_decide_eq_true_2 by lia. simpl. split_and!; [done | done |].
    unfold lastUserId. by rewrite last_snoc.
Qed.

Lemma X21_witness :
  ∃ e',
    App.approveOrReject "t1" "t2" Sample.db "x1" "u-dir" "APPROVE" ""
    = (setExpenses (<[0 := e']> (getExpenses Sample.db)) Sample.db, Ok (e_status e'))
    ∧ e_status e' = PENDING
    ∧ stepIndex (e_approvals e') = 1
    ∧ e_history e' = e_history Sample.lunch.
Proof.
  destruct (X21_approve_moves_forward "t1" "t2" Sample.db "x1" "u-dir" "" 0 Sample.lunch
              (mkStep ROLES.MANAGER []) eq_refl eq_refl eq_refl ltac:(constructor))
    as (e' & H1 & H2 & _).
  exists e'. split; [exact H1|]. apply H2. simpl. lia.
Defined.

(** X22. A submitted expense is stored first, under its new id, PENDING,
    with the cursor on the first step, and is from then on the expense
    that id refers to (an older expense with the same id is no longer
    reached). A decision on it is accepted when the rule set in force at
    submission had at least one step, and fails with "No active approval
    step", changing nothing, when it had none. *)
Theorem X22_submit_then_decide (now id userId : string) (db : Store) :
  let db1 := AppAdmin.handleExpenseSubmit now id userId db in
  let fresh := mkExpense id userId PENDING (AppAdmin.newApprovals db)
                         [mkHistory now PENDING userId] in
  getExpenses db1 = fresh :: getExpenses db
  ∧ findExpense id (getExpenses db1) = Some (0, fresh)
  ∧ (∀ nowPush nowEval approver decision comment,
       r_steps (getRules db) ≠ [] →
       ∃ db2 status,
         App.approveOrReject nowPush nowEval db1 id approver decision comment
         = (db2, Ok status))
  ∧ (∀ nowPush nowEval approver decision comment,
       r_steps (getRules db) = [] →
       App.approveOrReject nowPush nowEval db1 id approver decision comment
       = (db1, Throw NoActiveStep)).
Proof.
  intros db1 fresh.
  assert (Hfind : findExpense id (getExpenses db1) = Some (0, fresh)).
  { unfold findExpense. apply list_find_Some. split_and!; [done | done |].
    intros j y _ Hj. lia. }
  split_and!; [done | done | |].
  - intros nowPush nowEval approver decision comment Hne.
    destruct (r_steps (getRules db)) as [|r rs] eqn:Hsteps; [done|].
    rewrite (App_approveOrReject_active _ _ _ _ _ _ _ 0 fresh (mkStep r [])
               Hfind eq_refl).
    + eauto.
    + subst fresh. unfold AppAdmin.newApprovals. simpl. by rewrite Hsteps.
  - intros nowPush nowEval approver decision comment Hnil.
    unfold App.approveOrReject. rewrite Hfind. simpl.
    rewrite App_approverEntry_lookup. subst fresh.
    unfold AppAdmin.newApprovals. simpl. by rewrite Hnil.
Qed.

Lemma X22_witness :
  ∃ db2 status,
    App.approveOrReject "t1" "t2"
      (AppAdmin.handleExpenseSubmit "t0" "x9" "u-emp" Sample.db) "x9" "u-manager" "REJECT" ""
    = (db2, Ok status).
Proof.
  destruct (X22_submit_then_decide "t0" "x9" "u-emp" Sample.db) as (_ & _ & H & _).
  apply H. discriminate.
Defined.
